(** * A contact directory: phones, records and the address book

    Shallow embedding of [main.py].  Python objects are mutable and are
    handed around by reference, so the embedding keeps an object store:
    every [Phone], [Record] and [AddressBook] instance lives in the store
    under the reference that names it, and a method is a function from the
    store to an outcome and the store after the call. *)

From Stdlib Require Import NArith.
From stdpp Require Import gmap strings list fin_maps.

(** ** Strings *)

(** A character of a Python [str] is a Unicode code point. *)
Abbreviation char := N (only parsing).

(** [str]: a sequence of code points; [len] counts them. *)
Inductive str : Type :=
| EmptyStr
| StrCons (c : char) (s : str).

Declare Scope str_scope.
Delimit Scope str_scope with str.
Bind Scope str_scope with str.

Module Str.

(** A literal between double quotes is the [str] of its characters, which
    are to be ASCII. *)
Fixpoint of_bytes (bs : list Byte.byte) : option str :=
  match bs with
  | [] => Some EmptyStr
  | b :: rest =>
      if (Byte.to_N b <? 128)%N
      then match of_bytes rest with
           | Some s => Some (StrCons (Byte.to_N b) s)
           | None => None
           end
      else None
  end.

Fixpoint to_bytes (s : str) : option (list Byte.byte) :=
  match s with
  | EmptyStr => Some []
  | StrCons c rest =>
      match Byte.of_N c, to_bytes rest with
      | Some b, Some bs => if (c <? 128)%N then Some (b :: bs) else None
      | _, _ => None
      end
  end.

(** [len(s)] *)
Fixpoint length (s : str) : nat :=
  match s with
  | EmptyStr => 0
  | StrCons _ rest => S (length rest)
  end.

(** [s1 + s2] *)
Fixpoint append (s1 s2 : str) : str :=
  match s1 with
  | EmptyStr => s2
  | StrCons c rest => StrCons c (append rest s2)
  end.

(** [s1 == s2] *)
Fixpoint eqb (s1 s2 : str) : bool :=
  match s1, s2 with
  | EmptyStr, EmptyStr => true
  | StrCons c1 rest1, StrCons c2 rest2 => (c1 =? c2)%N && eqb rest1 rest2
  | _, _ => false
  end.

(** The code points of a string, and the string of a list of code
    points. *)
Fixpoint chars (s : str) : list char :=
  match s with
  | EmptyStr => []
  | StrCons c rest => c :: chars rest
  end.

Fixpoint of_chars (cs : list char) : str :=
  match cs with
  | [] => EmptyStr
  | c :: rest => StrCons c (of_chars rest)
  end.

(** The strings of a list with a separator between each two, said as the
    first string and then every further one with the separator before
    it. *)
Definition concat (sep : str) (l : list str) : str :=
  match l with
  | [] => EmptyStr
  | x :: rest => append x (foldr (λ y acc, append sep (append y acc)) EmptyStr rest)
  end.

End Str.

String Notation str Str.of_bytes Str.to_bytes : str_scope.
Infix "+:+" := Str.append (at level 60, right associativity) : str_scope.
Open Scope str_scope.

#[global] Instance str_eq_dec : EqDecision str.
Proof. solve_decision. Defined.

#[global] Instance str_countable : Countable str.
Proof.
  refine (inj_countable' Str.chars Str.of_chars _).
  intros s. induction s as [| c s IH]; simpl; [reflexivity | by rewrite IH].
Defined.

(** The ranges of the code points of Unicode category Nd, the decimal
    digits, in the Unicode database 14.0.0 of CPython 3.11. *)
Definition Nd : list (char * char) :=
  [(48, 57); (1632, 1641); (1776, 1785); (1984, 1993); (2406, 2415);
   (2534, 2543); (2662, 2671); (2790, 2799); (2918, 2927); (3046, 3055);
   (3174, 3183); (3302, 3311); (3430, 3439); (3558, 3567); (3664, 3673);
   (3792, 3801); (3872, 3881); (4160, 4169); (4240, 4249); (6112, 6121);
   (6160, 6169); (6470, 6479); (6608, 6617); (6784, 6793); (6800, 6809);
   (6992, 7001); (7088, 7097); (7232, 7241); (7248, 7257); (42528, 42537);
   (43216, 43225); (43264, 43273); (43472, 43481); (43504, 43513);
   (43600, 43609); (44016, 44025); (65296, 65305); (66720, 66729);
   (68912, 68921); (69734, 69743); (69872, 69881); (69942, 69951);
   (70096, 70105); (70384, 70393); (70736, 70745); (70864, 70873);
   (71248, 71257); (71360, 71369); (71472, 71481); (71904, 71913);
   (72016, 72025); (72784, 72793); (73040, 73049); (73120, 73129);
   (92768, 92777); (92864, 92873); (93008, 93017); (120782, 120831);
   (123200, 123209); (123632, 123641); (125264, 125273);
   (130032, 130041)]%N.

(** The class [\d] of a pattern that is a [str]: the decimal digits of
    every script, not those of ASCII only. *)
Definition is_digit (c : char) : bool :=
  existsb (λ r, (r.1 <=? c)%N && (c <=? r.2)%N) Nd.

(** The longest run of [\d] at the front of a string. *)
Fixpoint digit_run (s : str) : str :=
  match s with
  | EmptyStr => EmptyStr
  | StrCons c rest => if is_digit c then StrCons c (digit_run rest) else EmptyStr
  end.

(** [re.search('\d+', s)]: the leftmost match, taken greedily; the result is
    the text of the match ([match.group()]), or [None] without a match. *)
Fixpoint re_search_digits (s : str) : option str :=
  match s with
  | EmptyStr => None
  | StrCons c rest =>
      if is_digit c then Some (StrCons c (digit_run rest)) else re_search_digits rest
  end.

(** How an f-string prints an [int] that is not negative. *)
Fixpoint str_of_uint (d : Decimal.uint) : str :=
  match d with
  | Decimal.Nil => EmptyStr
  | Decimal.D0 d' => StrCons 48 (str_of_uint d')
  | Decimal.D1 d' => StrCons 49 (str_of_uint d')
  | Decimal.D2 d' => StrCons 50 (str_of_uint d')
  | Decimal.D3 d' => StrCons 51 (str_of_uint d')
  | Decimal.D4 d' => StrCons 52 (str_of_uint d')
  | Decimal.D5 d' => StrCons 53 (str_of_uint d')
  | Decimal.D6 d' => StrCons 54 (str_of_uint d')
  | Decimal.D7 d' => StrCons 55 (str_of_uint d')
  | Decimal.D8 d' => StrCons 56 (str_of_uint d')
  | Decimal.D9 d' => StrCons 57 (str_of_uint d')
  end.

Definition str_of_int (n : nat) : str := str_of_uint (Nat.to_uint n).

(** [sep.join(l)]. *)
Fixpoint join (sep : str) (l : list str) : str :=
  match l with
  | [] => EmptyStr
  | [x] => x
  | x :: rest => x +:+ sep +:+ join sep rest
  end.

(** ** Objects and the store *)

(** A reference names an object of the store; references of the three
    classes index three separate tables. *)
Abbreviation ref := nat (only parsing).

(** [class Field]: one attribute, [value]. *)
Record Field : Type := mkField { value : str }.

(** [class Name(Field)] and [class Phone(Field)] add no attribute. *)
Definition Name : Type := Field.
Definition Phone : Type := Field.

(** [class Record]: [self.name] is a [Name], [self.phones] a list of
    references to [Phone] objects. *)
Record RecordObj : Type := mkRecord { name : Name; phones : list ref }.

(** [class AddressBook(UserDict)]: the dictionary [self.data], from a name
    to a reference to a [Record] object. *)
Record AddressBook : Type := mkBook { data : gmap str ref }.

Record State : Type := mkState {
  phone_objs : list Phone;
  record_objs : list RecordObj;
  book_objs : list AddressBook
}.

Definition empty_state : State := mkState [] [] [].

(** ** Exceptions and the method monad *)

Inductive exn : Type :=
| ValueError (msg : str)
| RecordAlreadyExistsException (msg : str)
| TypeError
| IndexError
| KeyError.

(** What a call yields: a value, a raised exception, or [Fault] when a
    reference names no object of the store (a Python program holds no such
    reference). *)
Inductive outcome (A : Type) : Type :=
| Ret (a : A)
| Raise (e : exn)
| Fault.

Arguments Ret {A} a.
Arguments Raise {A} e.
Arguments Fault {A}.

Definition M (A : Type) : Type := State -> outcome A * State.

Definition ret {A} (a : A) : M A := fun σ => (Ret a, σ).

Definition raise {A} (e : exn) : M A := fun σ => (Raise e, σ).

Definition bind {A B} (m : M A) (k : A -> M B) : M B :=
  fun σ =>
    match m σ with
    | (Ret a, σ') => k a σ'
    | (Raise e, σ') => (Raise e, σ')
    | (Fault, σ') => (Fault, σ')
    end.

Notation "x <- m ;; k" := (bind m (fun x => k))
  (at level 100, m at next level, right associativity).

(** Truth value of [None] or an instance of a class that defines neither
    [__bool__] nor [__len__] (as [Field], [Phone] and [Record] do not). *)
Definition truthy {A} (o : option A) : bool :=
  match o with
  | Some _ => true
  | None => false
  end.

(** Reading and writing the store. *)
Definition get_phone (p : ref) : M Phone :=
  fun σ => match phone_objs σ !! p with
           | Some f => (Ret f, σ)
           | None => (Fault, σ)
           end.

Definition get_record (r : ref) : M RecordObj :=
  fun σ => match record_objs σ !! r with
           | Some R => (Ret R, σ)
           | None => (Fault, σ)
           end.

Definition get_book (b : ref) : M AddressBook :=
  fun σ => match book_objs σ !! b with
           | Some B => (Ret B, σ)
           | None => (Fault, σ)
           end.

Definition new_phone (f : Phone) : M ref :=
  fun σ => (Ret (length (phone_objs σ)),
            mkState (phone_objs σ ++ [f]) (record_objs σ) (book_objs σ)).

Definition new_record (R : RecordObj) : M ref :=
  fun σ => (Ret (length (record_objs σ)),
            mkState (phone_objs σ) (record_objs σ ++ [R]) (book_objs σ)).

Definition new_book (B : AddressBook) : M ref :=
  fun σ => (Ret (length (book_objs σ)),
            mkState (phone_objs σ) (record_objs σ) (book_objs σ ++ [B])).

(** [p.value = v] *)
Definition set_value (p : ref) (v : str) : M unit :=
  fun σ => match phone_objs σ !! p with
           | Some _ => (Ret tt, mkState (<[p := mkField v]> (phone_objs σ))
                                        (record_objs σ) (book_objs σ))
           | None => (Fault, σ)
           end.

(** The list [r.phones] becomes [ps]. *)
Definition set_phones (r : ref) (ps : list ref) : M unit :=
  fun σ => match record_objs σ !! r with
           | Some R => (Ret tt, mkState (phone_objs σ)
                                        (<[r := mkRecord (name R) ps]> (record_objs σ))
                                        (book_objs σ))
           | None => (Fault, σ)
           end.

(** The dictionary [b.data] becomes [d]. *)
Definition set_data (b : ref) (d : gmap str ref) : M unit :=
  fun σ => match book_objs σ !! b with
           | Some _ => (Ret tt, mkState (phone_objs σ) (record_objs σ)
                                        (<[b := mkBook d]> (book_objs σ)))
           | None => (Fault, σ)
           end.

(** [l[idx]] for an index that is [None] or a number that is not negative. *)
Definition list_getitem {A} (l : list A) (idx : option nat) : M A :=
  match idx with
  | None => raise TypeError
  | Some i => match l !! i with
              | Some x => ret x
              | None => raise IndexError
              end
  end.

(** [l.pop(idx)]: what is left of the list. *)
Definition list_pop {A} (l : list A) (idx : option nat) : M (list A) :=
  match idx with
  | None => raise TypeError
  | Some i => if i <? length l then ret (delete i l) else raise IndexError
  end.

(** [d.pop(key)]: what is left of the dictionary. *)
Definition dict_pop (d : gmap str ref) (key : str) : M (gmap str ref) :=
  match d !! key with
  | Some _ => ret (delete key d)
  | None => raise KeyError
  end.

(** ** [class Phone] *)

Module Phone.

Definition error_message (phone : str) (phone_number_len : nat) : str :=
  "Phone number must have only digits with length 10, but number: '"
  +:+ phone +:+ "' was given with the length " +:+ str_of_int phone_number_len.

(** [numbers]: the text of the match, or the empty string without one. *)
Definition numbers (phone : str) : str :=
  match re_search_digits phone with
  | Some group => group
  | None => EmptyStr
  end.

(** [Phone(phone)]: [__init__] checks [phone], and the object with that
    value is in the store when the check passes. *)
Definition __init__ (phone : str) : M ref :=
  let phone_number_len := Str.length phone in
  if negb (phone_number_len =? 10)
     || negb (Str.length (numbers phone) =? phone_number_len)
  then raise (ValueError (error_message phone phone_number_len))
  else new_phone (mkField phone).

End Phone.

(** ** [class Record] *)

Module Record.

(** [Record(name)] *)
Definition __init__ (name : str) : M ref :=
  new_record (mkRecord (mkField name) []).

(** The values of the phones of a list, in order. *)
Fixpoint values (ps : list ref) : M (list str) :=
  match ps with
  | [] => ret []
  | p :: rest =>
      f <- get_phone p ;;
      vs <- values rest ;;
      ret (value f :: vs)
  end.

Definition __str__ (self : ref) : M str :=
  R <- get_record self ;;
  vs <- values (phones R) ;;
  ret ("Contact name: " +:+ value (name R) +:+ ", phones: " +:+ join "; " vs).

(** The loop of [get_phone_by_number] over [enumerate(self.phones)], from
    index [idx] on. *)
Fixpoint scan (ps : list ref) (idx : nat) (phone_num : str)
  : M (option ref * option nat) :=
  match ps with
  | [] => ret (None, None)
  | phone :: rest =>
      f <- get_phone phone ;;
      if Str.eqb (value f) phone_num
      then ret (Some phone, Some idx)
      else scan rest (S idx) phone_num
  end.

Definition get_phone_by_number (self : ref) (phone_num : str)
  : M (option ref * option nat) :=
  R <- get_record self ;;
  scan (phones R) 0 phone_num.

Definition add_phone (self : ref) (phone_num : str) : M unit :=
  R <- get_record self ;;
  phone <- Phone.__init__ phone_num ;;
  set_phones self (phones R ++ [phone]).

Definition not_found_message (old_phone client : str) : str :=
  "Phone with the number '" +:+ old_phone
  +:+ "' was not found for the user '" +:+ client +:+ "'".

Definition edit_phone (self : ref) (old_phone new_phone : str) : M unit :=
  found <- get_phone_by_number self old_phone ;;
  let '(found_phone, idx) := found in
  R <- get_record self ;;
  if truthy found_phone
  then
    phone <- list_getitem (phones R) idx ;;
    set_value phone new_phone
  else
    raise (ValueError (not_found_message old_phone (value (name R)))).

Definition remove_phone (self : ref) (phone_num : str) : M unit :=
  found <- get_phone_by_number self phone_num ;;
  let '(_, idx) := found in
  R <- get_record self ;;
  rest <- list_pop (phones R) idx ;;
  set_phones self rest.

Definition find_phone (self : ref) (phone_num : str) : M (option ref) :=
  found <- get_phone_by_number self phone_num ;;
  let '(found_phone, _) := found in
  ret found_phone.

End Record.

(** ** [class AddressBook] *)

Module AddressBook.

(** [AddressBook()] *)
Definition __init__ : M ref := new_book (mkBook ∅).

Definition exists_message (client : str) : str :=
  "Record with the name '" +:+ client
  +:+ "' already exists in the address book dictionary".

Definition add_record (self : ref) (record : ref) : M unit :=
  B <- get_book self ;;
  R <- get_record record ;;
  if negb (bool_decide (is_Some (data B !! value (name R))))
  then set_data self (<[value (name R) := record]> (data B))
  else raise (RecordAlreadyExistsException (exists_message (value (name R)))).

Definition find (self : ref) (name : str) : M (option ref) :=
  B <- get_book self ;;
  ret (data B !! name).

Definition delete (self : ref) (name : str) : M unit :=
  B <- get_book self ;;
  if truthy (data B !! name)
  then
    rest <- dict_pop (data B) name ;;
    set_data self rest
  else ret tt.

End AddressBook.

(** * Specification vocabulary *)

(** A decimal digit, as the specification words it: a code point in one of
    the ranges of category Nd. *)
Definition decimal_digit (c : char) : Prop :=
  ∃ lo hi, (lo, hi) ∈ Nd ∧ (lo ≤ c ≤ hi)%N.

(** Exactly ten characters, each a decimal digit. *)
Definition ten_digits (s : str) : Prop :=
  Str.length s = 10 ∧ Forall decimal_digit (Str.chars s).

(** The phone object [p] of the store has value [w]. *)
Definition holds (σ : State) (p : ref) (w : str) : Prop :=
  phone_objs σ !! p = Some (mkField w).

(** [[p.value for p in self.phones]]: the values of a record's phones, in
    list order. *)
Definition phone_values (self : ref) : M (list str) :=
  R <- get_record self ;;
  Record.values (phones R).

(** The first occurrence of [v] in [vs] is at index [i]. *)
Definition first_at (v : str) (vs : list str) (i : nat) : Prop :=
  vs !! i = Some v ∧ v ∉ take i vs.

(** The store after [p.value = v]. *)
Definition with_value (σ : State) (p : ref) (v : str) : State :=
  mkState (<[p := mkField v]> (phone_objs σ)) (record_objs σ) (book_objs σ).

(** The store after the phone list of the record [r], which is [R], has
    become [ps]. *)
Definition with_phones (σ : State) (r : ref) (R : RecordObj) (ps : list ref) : State :=
  mkState (phone_objs σ) (<[r := mkRecord (name R) ps]> (record_objs σ)) (book_objs σ).

(** The store after the dictionary of the book [b] has become [d]. *)
Definition with_data (σ : State) (b : ref) (d : gmap str ref) : State :=
  mkState (phone_objs σ) (record_objs σ) (<[b := mkBook d]> (book_objs σ)).

(** The values read through the references [ps], which were [vs], after the
    object [q] got value [new]. *)
Definition edited (q : ref) (new : str) (ps : list ref) (vs : list str)
  : list str :=
  zip_with (λ p w, if decide (p = q) then new else w) ps vs.

(** The store after [Phone(v)] made a new object. *)
Definition with_new_phone (σ : State) (v : str) : State :=
  mkState (phone_objs σ ++ [mkField v]) (record_objs σ) (book_objs σ).

(** [add_phone] of each number in turn. *)
Fixpoint add_phones (r : ref) (phone_nums : list str) : M unit :=
  match phone_nums with
  | [] => ret tt
  | phone_num :: rest =>
      _ <- Record.add_phone r phone_num ;;
      add_phones r rest
  end.

(** [Record(name)], then [add_phone] of each number. *)
Definition record_with (name : str) (phone_nums : list str) : M ref :=
  r <- Record.__init__ name ;;
  _ <- add_phones r phone_nums ;;
  ret r.

(** The store a program leaves when it starts with no object. *)
Definition store_of {A} (m : M A) : State := (m empty_state).2.

(** John with one phone, and John with the same number added twice. *)
Definition john_one_phone : State :=
  store_of (record_with "John" ["1234567890"]).

Definition john_same_twice : State :=
  store_of (record_with "John" ["1234567890"; "1234567890"]).

(** ** Programs over the public operations *)

(** One call of a constructor or of a public method, on any references. *)
Inductive call : Type :=
| CallRecord (name : str)
| CallAddressBook
| CallAddPhone (r : ref) (phone_num : str)
| CallEditPhone (r : ref) (old_phone new_phone : str)
| CallRemovePhone (r : ref) (phone_num : str)
| CallFindPhone (r : ref) (phone_num : str)
| CallAddRecord (b r : ref)
| CallFind (b : ref) (name : str)
| CallDelete (b : ref) (name : str).

(** The store after a call, whether it returned or raised. *)
Definition exec (c : call) (σ : State) : State :=
  match c with
  | CallRecord name => (Record.__init__ name σ).2
  | CallAddressBook => (AddressBook.__init__ σ).2
  | CallAddPhone r phone_num => (Record.add_phone r phone_num σ).2
  | CallEditPhone r old_phone new_phone => (Record.edit_phone r old_phone new_phone σ).2
  | CallRemovePhone r phone_num => (Record.remove_phone r phone_num σ).2
  | CallFindPhone r phone_num => (Record.find_phone r phone_num σ).2
  | CallAddRecord b r => (AddressBook.add_record b r σ).2
  | CallFind b name => (AddressBook.find b name σ).2
  | CallDelete b name => (AddressBook.delete b name σ).2
  end.

Definition run (cs : list call) (σ : State) : State :=
  foldl (λ σ' c, exec c σ') σ cs.

(** Every key of every book is the name of the record stored under it. *)
Definition key_consistent (σ : State) : Prop :=
  ∀ b B k r, book_objs σ !! b = Some B → data B !! k = Some r →
             ∃ R, record_objs σ !! r = Some R ∧ value (name R) = k.

(** No book lists a key twice. *)
Definition keys_unique (σ : State) : Prop :=
  ∀ b B, book_objs σ !! b = Some B → NoDup (map_to_list (data B)).*1.

(** From [σ] to [σ'] the books are the same and every record keeps its
    name. *)
Definition names_kept (σ σ' : State) : Prop :=
  book_objs σ' = book_objs σ
  ∧ ∀ r R, record_objs σ !! r = Some R →
           ∃ R', record_objs σ' !! r = Some R' ∧ name R' = name R.

(** A computation that leaves the books and the names of the records. *)
Definition keeps_names {A} (m : M A) : Prop := ∀ σ, names_kept σ (m σ).2.

(** The scenario of the specification: John with two phones is put in a
    book, found there, and the first phone is edited; the result is the
    string form of the record and the phone found for the second number. *)
Definition scenario : M (str * option ref) :=
  book <- AddressBook.__init__ ;;
  john_record <- Record.__init__ "John" ;;
  _ <- Record.add_phone john_record "1234567890" ;;
  _ <- Record.add_phone john_record "5555555555" ;;
  _ <- AddressBook.add_record book john_record ;;
  john <- AddressBook.find book "John" ;;
  match john with
  | Some john =>
      _ <- Record.edit_phone john "1234567890" "1112223333" ;;
      printed <- Record.__str__ john ;;
      found_phone <- Record.find_phone john "5555555555" ;;
      ret (printed, found_phone)
  | None => raise TypeError
  end.

(** John with one phone after [add_phone] of the same number, and after
    [remove_phone] of that number then. *)
Definition john_added_again : State :=
  (Record.add_phone 0 "1234567890" john_one_phone).2.

Definition john_removed_once : State :=
  (Record.remove_phone 0 "1234567890" john_added_again).2.

(** A book that has John, and a second record of that name beside it. *)
Definition two_johns : State :=
  store_of (book <- AddressBook.__init__ ;;
            john_record <- record_with "John" ["1234567890"] ;;
            _ <- AddressBook.add_record book john_record ;;
            Record.__init__ "John").

(** Every reference in a phone list names a phone object of the store. *)
Definition phones_allocated (σ : State) : Prop :=
  ∀ r R, record_objs σ !! r = Some R →
         Forall (λ p, p < length (phone_objs σ)) (phones R).

(** Membership in a list of literals, decided by evaluation. *)
Ltac by_decision :=
  match goal with
  | |- ?P => let d := constr:(_ : Decision P) in
             apply (@bool_decide_unpack P d); vm_compute; exact I
  end.

(** ** Vocabulary for the properties beyond the claims *)

(** No phone object is in two phone lists, or twice in one. *)
Definition phones_owned (σ : State) : Prop :=
  ∀ r1 R1 r2 R2 i j p,
    record_objs σ !! r1 = Some R1 → record_objs σ !! r2 = Some R2 →
    phones R1 !! i = Some p → phones R2 !! j = Some p →
    r1 = r2 ∧ i = j.

(** Every phone object of the store has a valid number as its value. *)
Definition values_valid (σ : State) : Prop :=
  Forall (λ f, ten_digits (value f)) (phone_objs σ).

(** The call is an [edit_phone]. *)
Definition is_edit (c : call) : bool :=
  match c with
  | CallEditPhone _ _ _ => true
  | _ => false
  end.

(** The call is a constructor or a method of [Record]; the others are
    those of [AddressBook]. *)
Definition on_record (c : call) : bool :=
  match c with
  | CallRecord _ | CallAddPhone _ _ | CallEditPhone _ _ _
  | CallRemovePhone _ _ | CallFindPhone _ _ => true
  | CallAddressBook | CallAddRecord _ _ | CallFind _ _ | CallDelete _ _ => false
  end.

(** John with two numbers and Jane with one, both in one book, as a
    program of calls. *)
Definition john_and_jane : list call :=
  [CallAddressBook;
   CallRecord "John"; CallAddPhone 0 "1234567890"; CallAddPhone 0 "5555555555";
   CallAddRecord 0 0;
   CallRecord "Jane"; CallAddPhone 1 "9876543210"; CallAddRecord 0 1].

(** A book without entry beside John's record, which is in no book. *)
Definition john_beside_book : State :=
  store_of (_ <- AddressBook.__init__ ;; record_with "John" ["1234567890"]).

(** * Phone numbers *)

Lemma eqb_spec (s1 s2 : str) : reflect (s1 = s2) (Str.eqb s1 s2).
Proof.
  revert s2. induction s1 as [| c1 s1 IH]; intros [| c2 s2]; simpl;
    try (constructor; congruence).
  destruct (N.eqb_spec c1 c2) as [-> | Hne]; simpl; [| constructor; congruence].
  destruct (IH s2) as [-> | Hne]; constructor; congruence.
Qed.

Lemma eqb_refl (s : str) : Str.eqb s s = true.
Proof. by destruct (eqb_spec s s). Qed.

Lemma append_empty_r (s : str) : s +:+ EmptyStr = s.
Proof. induction s as [| c s IH]; simpl; [reflexivity | by rewrite IH]. Qed.

Lemma is_digit_spec (c : char) : is_digit c = true ↔ decimal_digit c.
Proof.
  unfold is_digit, decimal_digit. rewrite existsb_exists. split.
  - intros ([lo hi] & Hin & Hc). exists lo, hi.
    apply andb_true_iff in Hc as [Hlo Hhi].
    split; [by apply list_elem_of_In |].
    split; [by apply N.leb_le | by apply N.leb_le].
  - intros (lo & hi & Hin & Hlo & Hhi). exists (lo, hi).
    split; [by apply list_elem_of_In |].
    apply andb_true_iff. split; by apply N.leb_le.
Qed.

Lemma digit_run_length (s : str) :
  Str.length (digit_run s) ≤ Str.length s.
Proof.
  induction s as [| c s IH]; simpl; [lia |].
  destruct (is_digit c); simpl; lia.
Qed.

Lemma digit_run_full (s : str) :
  Str.length (digit_run s) = Str.length s
  ↔ Forall decimal_digit (Str.chars s).
Proof.
  induction s as [| c s IH]; simpl.
  - split; [constructor | reflexivity].
  - destruct (is_digit c) eqn:Hc; simpl.
    + rewrite Forall_cons, <- IH, <- is_digit_spec. split; [intros; split |]; [done | lia | lia].
    + split; [discriminate |].
      intros H. apply Forall_cons in H as [H _].
      apply is_digit_spec in H. congruence.
Qed.

Lemma re_search_digits_length (s : str) :
  Str.length (Phone.numbers s) ≤ Str.length s.
Proof.
  unfold Phone.numbers. induction s as [| c s IH]; simpl; [lia |].
  destruct (is_digit c); simpl.
  - pose proof (digit_run_length s). lia.
  - destruct (re_search_digits s); simpl in *; lia.
Qed.

(** The match covers the whole string exactly when every character is a
    digit. *)
Lemma numbers_full (s : str) :
  Str.length (Phone.numbers s) = Str.length s
  ↔ Forall decimal_digit (Str.chars s).
Proof.
  destruct s as [| c s]; [split; [constructor | reflexivity] |].
  unfold Phone.numbers. simpl. destruct (is_digit c) eqn:Hc; simpl.
  - rewrite Forall_cons, <- digit_run_full, <- is_digit_spec.
    split; [intros; split |]; [done | lia | lia].
  - pose proof (re_search_digits_length s) as Hle. unfold Phone.numbers in Hle.
    split.
    + intros H. destruct (re_search_digits s); simpl in *; lia.
    + intros H. apply Forall_cons in H as [H _].
      apply is_digit_spec in H. congruence.
Qed.

Lemma phone_check (phone : str) :
  negb (Str.length phone =? 10)
  || negb (Str.length (Phone.numbers phone) =? Str.length phone) = false
  ↔ ten_digits phone.
Proof.
  unfold ten_digits. rewrite <- numbers_full.
  rewrite orb_false_iff, !negb_false_iff, !Nat.eqb_eq. tauto.
Qed.

(** C1. Constructing a phone from [phone] succeeds exactly when [phone] has
    ten characters and each is a decimal digit, of whatever script: then a
    new object is stored whose value is [phone]; otherwise the call raises
    [ValueError] and nothing is stored. *)
Theorem phone_init_spec (phone : str) (σ : State) :
  (ten_digits phone
   ∧ ∃ p σ', Phone.__init__ phone σ = (Ret p, σ')
             ∧ phone_objs σ !! p = None
             ∧ get_phone p σ' = (Ret (mkField phone), σ'))
  ∨ (¬ ten_digits phone
     ∧ Phone.__init__ phone σ
       = (Raise (ValueError (Phone.error_message phone (Str.length phone))), σ)).
Proof.
  unfold Phone.__init__.
  destruct (negb (Str.length phone =? 10)
            || negb (Str.length (Phone.numbers phone) =? Str.length phone)) eqn:E.
  - right. split; [| reflexivity].
    intros H. apply phone_check in H. congruence.
  - left. split; [by apply phone_check |].
    eexists _, _. split; [reflexivity |]. split.
    + apply lookup_ge_None. lia.
    + unfold get_phone. simpl. by rewrite lookup_app_r, Nat.sub_diag by lia.
Qed.

(** * Reading a record's phones *)

Lemma values_state (ps : list ref) (σ : State) : (Record.values ps σ).2 = σ.
Proof.
  induction ps as [| p ps IH]; [reflexivity |].
  simpl. unfold bind, get_phone.
  destruct (phone_objs σ !! p); [| reflexivity].
  destruct (Record.values ps σ) as [[vs | e |] σ']; simpl in *; by subst.
Qed.

Lemma values_intro (ps : list ref) (vs : list str) (σ : State) :
  Forall2 (holds σ) ps vs → Record.values ps σ = (Ret vs, σ).
Proof.
  induction 1 as [| p w ps vs Hp _ IH]; [reflexivity |].
  simpl. unfold bind, get_phone. by rewrite Hp, IH.
Qed.

Lemma values_inv (ps : list ref) (vs : list str) (σ σ' : State) :
  Record.values ps σ = (Ret vs, σ') → Forall2 (holds σ) ps vs.
Proof.
  revert vs σ'. induction ps as [| p ps IH]; intros vs σ' H.
  - injection H as <- _. constructor.
  - simpl in H. unfold bind, get_phone in H.
    destruct (phone_objs σ !! p) as [[w] |] eqn:Hp; [| discriminate].
    pose proof (values_state ps σ) as Hs.
    destruct (Record.values ps σ) as [[ws | e |] σ1] eqn:Hv; try discriminate.
    simpl in Hs. subst σ1. injection H as <- _.
    constructor; [exact Hp | by eapply IH].
Qed.

Lemma phone_values_inv (self : ref) (vs : list str) (σ σ' : State) :
  phone_values self σ = (Ret vs, σ') →
  ∃ R, record_objs σ !! self = Some R ∧ Forall2 (holds σ) (phones R) vs.
Proof.
  unfold phone_values, bind, get_record. intros H.
  destruct (record_objs σ !! self) as [R |]; [| discriminate].
  exists R. split; [reflexivity | by eapply values_inv].
Qed.

Lemma phone_values_intro (self : ref) (R : RecordObj) (vs : list str) (σ : State) :
  record_objs σ !! self = Some R → Forall2 (holds σ) (phones R) vs →
  phone_values self σ = (Ret vs, σ).
Proof.
  intros HR Hvs. unfold phone_values, bind, get_record.
  rewrite HR. by apply values_intro.
Qed.

(** * The search loop *)

Lemma first_at_exists (v : str) (vs : list str) :
  v ∈ vs → ∃ i, first_at v vs i.
Proof.
  unfold first_at. induction vs as [| w vs IH]; intros H.
  - by apply elem_of_nil in H.
  - destruct (decide (w = v)) as [-> | Hne].
    + exists 0. split; [reflexivity | apply not_elem_of_nil].
    + apply elem_of_cons in H as [-> | H]; [done |].
      destruct (IH H) as (i & Hi & Hb).
      exists (S i). split; [exact Hi |].
      simpl. rewrite not_elem_of_cons. by split.
Qed.

Lemma first_at_unique (v : str) (vs : list str) (i j : nat) :
  first_at v vs i → first_at v vs j → i = j.
Proof.
  intros [Hi Hni] [Hj Hnj].
  destruct (Nat.lt_trichotomy i j) as [Hlt | [-> | Hlt]]; [| done |].
  - exfalso. apply Hnj. apply elem_of_take. eauto.
  - exfalso. apply Hni. apply elem_of_take. eauto.
Qed.

Lemma first_at_elem (v : str) (vs : list str) (i : nat) :
  first_at v vs i → v ∈ vs.
Proof. intros [H _]. by eapply list_elem_of_lookup_2. Qed.

Lemma scan_absent (σ : State) (ps : list ref) (vs : list str) (k : nat) (v : str) :
  Forall2 (holds σ) ps vs → v ∉ vs →
  Record.scan ps k v σ = (Ret (None, None), σ).
Proof.
  intros H. revert k. induction H as [| p w ps vs Hp _ IH]; intros k Hv.
  - reflexivity.
  - apply not_elem_of_cons in Hv as [Hne Hv].
    simpl. unfold bind, get_phone. rewrite Hp. simpl.
    destruct (eqb_spec w v) as [-> | _]; [done |].
    by apply IH.
Qed.

Lemma scan_first (σ : State) (ps : list ref) (vs : list str) (k i : nat) (v : str) :
  Forall2 (holds σ) ps vs → first_at v vs i →
  ∃ p, ps !! i = Some p ∧ holds σ p v
       ∧ Record.scan ps k v σ = (Ret (Some p, Some (k + i)), σ).
Proof.
  intros H. revert k i. induction H as [| p w ps vs Hp _ IH]; intros k i [Hi Hb].
  - by rewrite lookup_nil in Hi.
  - destruct i as [| i]; simpl in Hi, Hb.
    + injection Hi as ->. exists p. split; [done |]. split; [done |].
      simpl. unfold bind, get_phone. rewrite Hp. simpl.
      by rewrite eqb_refl, Nat.add_0_r.
    + apply not_elem_of_cons in Hb as [Hne Hb].
      destruct (IH (S k) i) as (q & Hq & Hqv & Hs); [by split |].
      exists q. split; [done |]. split; [done |].
      simpl. unfold bind, get_phone. rewrite Hp. simpl.
      destruct (eqb_spec w v) as [-> | _]; [done |].
      by rewrite Hs, Nat.add_succ_r.
Qed.

Lemma get_phone_by_number_absent (σ : State) (self : ref) (R : RecordObj)
    (vs : list str) (v : str) :
  record_objs σ !! self = Some R → Forall2 (holds σ) (phones R) vs → v ∉ vs →
  Record.get_phone_by_number self v σ = (Ret (None, None), σ).
Proof.
  intros HR Hvs Hv. unfold Record.get_phone_by_number, bind, get_record.
  rewrite HR. by eapply scan_absent.
Qed.

Lemma get_phone_by_number_first (σ : State) (self : ref) (R : RecordObj)
    (vs : list str) (v : str) (i : nat) :
  record_objs σ !! self = Some R → Forall2 (holds σ) (phones R) vs →
  first_at v vs i →
  ∃ p, phones R !! i = Some p ∧ holds σ p v
       ∧ Record.get_phone_by_number self v σ = (Ret (Some p, Some i), σ).
Proof.
  intros HR Hvs Hv. unfold Record.get_phone_by_number, bind, get_record.
  rewrite HR. by eapply (scan_first _ _ _ 0).
Qed.

(** * Editing and removing a phone *)

Lemma phone_values_with_phones (σ : State) (self : ref) (R : RecordObj)
    (ps : list ref) (vs : list str) :
  record_objs σ !! self = Some R → Forall2 (holds σ) ps vs →
  phone_values self (with_phones σ self R ps) = (Ret vs, with_phones σ self R ps).
Proof.
  intros HR Hvs.
  apply (phone_values_intro _ (mkRecord (name R) ps)); simpl.
  - apply list_lookup_insert_eq. by eapply lookup_lt_Some.
  - exact Hvs.
Qed.

(** C3. When no phone of the record has value [old], [edit_phone] raises
    the error that names [old] and the contact, and the store, so the phone
    list too, is as before. *)
Theorem edit_phone_not_found (σ : State) (self : ref) (R : RecordObj)
    (vs : list str) (old new : str) :
  record_objs σ !! self = Some R →
  phone_values self σ = (Ret vs, σ) →
  old ∉ vs →
  Record.edit_phone self old new σ
  = (Raise (ValueError ("Phone with the number '" +:+ old
                        +:+ "' was not found for the user '"
                        +:+ value (name R) +:+ "'")), σ).
Proof.
  intros HR Hvs Hold.
  apply phone_values_inv in Hvs as (R' & HR' & Hvs).
  rewrite HR in HR'. injection HR' as <-.
  unfold Record.edit_phone, bind.
  rewrite (get_phone_by_number_absent σ self R vs old) by done.
  unfold get_record. by rewrite HR.
Qed.

Lemma remove_phone_absent (σ : State) (self : ref) (R : RecordObj)
    (vs : list str) (v : str) :
  record_objs σ !! self = Some R → Forall2 (holds σ) (phones R) vs → v ∉ vs →
  Record.remove_phone self v σ = (Raise TypeError, σ).
Proof.
  intros HR Hvs Hv. unfold Record.remove_phone, bind.
  rewrite (get_phone_by_number_absent σ self R vs v) by done.
  unfold get_record. by rewrite HR.
Qed.

Lemma remove_phone_first (σ : State) (self : ref) (R : RecordObj)
    (vs : list str) (v : str) (i : nat) :
  record_objs σ !! self = Some R → Forall2 (holds σ) (phones R) vs →
  first_at v vs i →
  Record.remove_phone self v σ
  = (Ret tt, with_phones σ self R (delete i (phones R))).
Proof.
  intros HR Hvs Hv.
  destruct (get_phone_by_number_first σ self R vs v i) as (p & Hp & _ & Hg);
    [done.. |].
  unfold Record.remove_phone, bind. rewrite Hg.
  unfold get_record. rewrite HR. unfold list_pop.
  apply lookup_lt_Some in Hp. apply Nat.ltb_lt in Hp. rewrite Hp.
  unfold ret, set_phones. by rewrite HR.
Qed.

(** C10. [remove_phone] raises exactly when no phone has the value, and
    then the store is as before; when the value is present the phone at its
    first occurrence is removed and the others stay in order. *)
Theorem remove_phone_spec (σ : State) (self : ref) (R : RecordObj)
    (vs : list str) (v : str) :
  record_objs σ !! self = Some R →
  phone_values self σ = (Ret vs, σ) →
  (v ∉ vs → Record.remove_phone self v σ = (Raise TypeError, σ))
  ∧ (v ∈ vs →
     ∃ i, first_at v vs i
          ∧ Record.remove_phone self v σ
            = (Ret tt, with_phones σ self R (delete i (phones R)))
          ∧ phone_values self (with_phones σ self R (delete i (phones R)))
            = (Ret (take i vs ++ drop (S i) vs),
               with_phones σ self R (delete i (phones R))))
  ∧ ((∃ e σ', Record.remove_phone self v σ = (Raise e, σ')) ↔ v ∉ vs).
Proof.
  intros HR Hvs.
  apply phone_values_inv in Hvs as (R' & HR' & Hvs).
  rewrite HR in HR'. injection HR' as <-.
  assert (Hpresent : v ∈ vs →
     ∃ i, first_at v vs i
          ∧ Record.remove_phone self v σ
            = (Ret tt, with_phones σ self R (delete i (phones R)))).
  { intros Hv. destruct (first_at_exists v vs Hv) as [i Hi].
    exists i. split; [done | by eapply remove_phone_first]. }
  split; [by eapply remove_phone_absent |]. split.
  - intros Hv. destruct (Hpresent Hv) as (i & Hi & Hrm).
    exists i. split; [done |]. split; [done |].
    rewrite <- delete_take_drop.
    apply phone_values_with_phones; [done |].
    by apply Forall2_delete.
  - split.
    + intros (e & σ' & Hraise) Hv.
      destruct (Hpresent Hv) as (i & _ & Hrm). congruence.
    + intros Hv. exists TypeError, σ. by eapply remove_phone_absent.
Qed.

Lemma edit_phone_first (σ : State) (self : ref) (R : RecordObj)
    (vs : list str) (old new : str) (i : nat) :
  record_objs σ !! self = Some R → Forall2 (holds σ) (phones R) vs →
  first_at old vs i →
  ∃ p, phones R !! i = Some p ∧ holds σ p old
       ∧ Record.edit_phone self old new σ = (Ret tt, with_value σ p new).
Proof.
  intros HR Hvs Hv.
  destruct (get_phone_by_number_first σ self R vs old i) as (p & Hp & Hpv & Hg);
    [done.. |].
  exists p. split; [done |]. split; [done |].
  unfold Record.edit_phone, bind. rewrite Hg.
  unfold get_record. rewrite HR. simpl. rewrite Hp.
  unfold ret, set_value. by rewrite Hpv.
Qed.

Lemma holds_edited (σ : State) (q : ref) (w new : str)
    (ps : list ref) (vs : list str) :
  holds σ q w → Forall2 (holds σ) ps vs →
  Forall2 (holds (with_value σ q new)) ps (edited q new ps vs).
Proof.
  intros Hq. induction 1 as [| p u ps vs Hp _ IH]; [constructor |].
  unfold edited. simpl. constructor; [| exact IH].
  unfold holds, with_value. simpl. destruct (decide (p = q)) as [-> | Hne].
  - apply list_lookup_insert_eq. by eapply lookup_lt_Some.
  - by rewrite list_lookup_insert_ne.
Qed.

Lemma edited_lookup (q : ref) (new : str) (ps : list ref) (vs : list str)
    (j : nat) (u : str) :
  edited q new ps vs !! j = Some u →
  ∃ p w, ps !! j = Some p ∧ vs !! j = Some w
         ∧ u = (if decide (p = q) then new else w).
Proof.
  unfold edited. intros H.
  apply lookup_zip_with_Some in H as (p & w & -> & Hp & Hw). eauto.
Qed.

Lemma edited_at (q : ref) (new : str) (ps : list ref) (vs : list str)
    (i : nat) (w : str) :
  ps !! i = Some q → vs !! i = Some w → edited q new ps vs !! i = Some new.
Proof.
  intros Hq Hw. unfold edited.
  apply lookup_zip_with_Some. exists q, w. by rewrite decide_True.
Qed.

Section Edited.

Variables (σ : State) (ps : list ref) (vs : list str).
Variables (old new : str) (i : nat) (p : ref).
Hypothesis Hvs : Forall2 (holds σ) ps vs.
Hypothesis Hfirst : first_at old vs i.
Hypothesis Hp : ps !! i = Some p.

(** A reference to the edited object reads [old] before the edit. *)
Lemma edited_alias (j : nat) (w : str) :
  ps !! j = Some p → vs !! j = Some w → w = old.
Proof using Hvs Hfirst Hp.
  intros Hj Hw. destruct Hfirst as [Hi _].
  pose proof (Forall2_lookup_lr _ _ _ _ _ _ Hvs Hj Hw) as H1.
  pose proof (Forall2_lookup_lr _ _ _ _ _ _ Hvs Hp Hi) as H2.
  unfold holds in H1, H2. congruence.
Qed.

(** Before the edited position nothing changes. *)
Lemma edited_before (j : nat) (u : str) :
  j < i → edited p new ps vs !! j = Some u → vs !! j = Some u.
Proof using Hvs Hfirst Hp.
  intros Hj Hu. apply edited_lookup in Hu as (q & w & Hq & Hw & ->).
  destruct (decide (q = p)) as [-> | _]; [| done].
  exfalso. rewrite (edited_alias j w Hq Hw) in Hw.
  destruct Hfirst as [_ Hb]. apply Hb, elem_of_take. eauto.
Qed.

Lemma edited_first_new :
  new ∉ take i vs → first_at new (edited p new ps vs) i.
Proof using Hvs Hfirst Hp.
  intros Hnew. split.
  - destruct Hfirst as [Hi _]. by eapply edited_at.
  - intros (j & Hj & Hlt)%elem_of_take.
    apply Hnew, elem_of_take. exists j. split; [by apply edited_before | done].
Qed.

Lemma edited_without_old :
  old ≠ new → old ∉ drop (S i) vs → old ∉ edited p new ps vs.
Proof using Hvs Hfirst Hp.
  intros Hne Hafter (j & Hj)%list_elem_of_lookup_1.
  apply edited_lookup in Hj as (q & w & Hq & Hw & Hold).
  destruct (decide (q = p)) as [-> | Hqp]; [done |]. subst w.
  destruct Hfirst as [Hi Hb].
  destruct (Nat.lt_trichotomy j i) as [Hlt | [-> | Hlt]].
  - apply Hb, elem_of_take. eauto.
  - congruence.
  - apply Hafter, list_elem_of_lookup. exists (j - S i).
    rewrite lookup_drop. by replace (S i + (j - S i)) with j by lia.
Qed.

End Edited.

(** * Finding and adding a phone *)

Lemma find_phone_absent (σ : State) (self : ref) (R : RecordObj)
    (vs : list str) (v : str) :
  record_objs σ !! self = Some R → Forall2 (holds σ) (phones R) vs → v ∉ vs →
  Record.find_phone self v σ = (Ret None, σ).
Proof.
  intros HR Hvs Hv. unfold Record.find_phone, bind.
  by rewrite (get_phone_by_number_absent σ self R vs v).
Qed.

Lemma find_phone_first (σ : State) (self : ref) (R : RecordObj)
    (vs : list str) (v : str) (i : nat) :
  record_objs σ !! self = Some R → Forall2 (holds σ) (phones R) vs →
  first_at v vs i →
  ∃ p, phones R !! i = Some p ∧ holds σ p v
       ∧ Record.find_phone self v σ = (Ret (Some p), σ).
Proof.
  intros HR Hvs Hv.
  destruct (get_phone_by_number_first σ self R vs v i) as (p & Hp & Hpv & Hg);
    [done.. |].
  exists p. split; [done |]. split; [done |].
  unfold Record.find_phone, bind. by rewrite Hg.
Qed.

Lemma phone_init_valid (σ : State) (v : str) :
  ten_digits v →
  Phone.__init__ v σ = (Ret (length (phone_objs σ)), with_new_phone σ v).
Proof.
  intros Hv%phone_check. unfold Phone.__init__. by rewrite Hv.
Qed.

Lemma add_phone_valid (σ : State) (self : ref) (R : RecordObj) (v : str) :
  record_objs σ !! self = Some R → ten_digits v →
  Record.add_phone self v σ
  = (Ret tt, with_phones (with_new_phone σ v) self R
               (phones R ++ [length (phone_objs σ)])).
Proof.
  intros HR Hv. unfold Record.add_phone, bind, get_record. rewrite HR.
  rewrite phone_init_valid by done.
  unfold set_phones. simpl. by rewrite HR.
Qed.

Lemma holds_new_phone (σ : State) (v : str) (ps : list ref) (vs : list str) :
  Forall2 (holds σ) ps vs →
  Forall2 (holds (with_new_phone σ v))
          (ps ++ [length (phone_objs σ)]) (vs ++ [v]).
Proof.
  intros H. apply Forall2_app.
  - eapply Forall2_impl; [exact H |].
    intros p w Hp. unfold holds, with_new_phone in *. simpl.
    by apply lookup_app_l_Some.
  - constructor; [| constructor].
    unfold holds, with_new_phone. simpl.
    by rewrite lookup_app_r, Nat.sub_diag.
Qed.

Lemma first_at_app_new (v : str) (vs : list str) (i : nat) :
  first_at v (vs ++ [v]) i →
  ((v ∉ vs) ∧ i = length vs) ∨ (v ∈ vs ∧ i < length vs).
Proof.
  intros [Hi Hb].
  destruct (decide (i < length vs)) as [Hlt | Hge].
  - right. split; [| done].
    rewrite lookup_app_l in Hi by done. by eapply list_elem_of_lookup_2.
  - left. apply lookup_lt_Some in Hi as Hlen. rewrite length_app in Hlen.
    simpl in Hlen. assert (i = length vs) as -> by lia.
    split; [| done]. by rewrite take_app_length in Hb.
Qed.

(** C5, as the code has it. When [old] is among the record's phones and
    [new] is a valid number, [edit_phone] overwrites the value of the first
    phone that has value [old]; then [find_phone new] returns a phone whose
    value is [new], which is the edited object unless an earlier phone
    already had value [new]; and [find_phone old] returns [None] when [old]
    differs from [new] and occurred once only. *)
Theorem edit_then_find (σ : State) (self : ref) (R : RecordObj)
    (vs : list str) (old new : str) :
  record_objs σ !! self = Some R →
  phone_values self σ = (Ret vs, σ) →
  old ∈ vs →
  ten_digits new →
  ∃ i p σ',
    first_at old vs i ∧ phones R !! i = Some p
    ∧ σ' = with_value σ p new
    ∧ Record.edit_phone self old new σ = (Ret tt, σ')
    ∧ (∃ q, Record.find_phone self new σ' = (Ret (Some q), σ') ∧ holds σ' q new)
    ∧ (new ∉ take i vs → Record.find_phone self new σ' = (Ret (Some p), σ'))
    ∧ (old ≠ new → old ∉ drop (S i) vs →
       Record.find_phone self old σ' = (Ret None, σ')).
Proof.
  intros HR Hvs Hold _.
  apply phone_values_inv in Hvs as (R' & HR' & Hvs).
  rewrite HR in HR'. injection HR' as <-.
  destruct (first_at_exists old vs Hold) as [i Hi].
  destruct (edit_phone_first σ self R vs old new i) as (p & Hp & Hpv & He);
    [done.. |].
  pose proof (holds_edited σ p old new _ _ Hpv Hvs) as Hvs'.
  exists i, p, (with_value σ p new).
  split; [done |]. split; [done |]. split; [done |]. split; [done |].
  assert (HR' : record_objs (with_value σ p new) !! self = Some R) by done.
  split; [| split].
  - assert (new ∈ edited p new (phones R) vs) as Hin.
    { destruct Hi as [Hi _]. eapply list_elem_of_lookup_2, edited_at; eauto. }
    destruct (first_at_exists _ _ Hin) as [j Hj].
    destruct (find_phone_first _ self R _ new j HR' Hvs' Hj) as (q & _ & Hq & Hf).
    eauto.
  - intros Hnew.
    pose proof (edited_first_new σ _ vs old new i p Hvs Hi Hp Hnew) as Hj.
    destruct (find_phone_first _ self R _ new i HR' Hvs' Hj) as (q & Hq & _ & Hf).
    rewrite Hp in Hq. by injection Hq as <-.
  - intros Hne Hafter.
    eapply find_phone_absent; [done.. |].
    by eapply edited_without_old.
Qed.

(** C6, as the code has it. After [add_phone v] with a valid [v],
    [remove_phone v] takes one phone off the list; [find_phone v] then
    returns [None] when [v] was not in the list before the add, and a phone
    when it was. *)
Theorem add_then_remove (σ : State) (self : ref) (R : RecordObj)
    (vs : list str) (v : str) :
  record_objs σ !! self = Some R →
  phone_values self σ = (Ret vs, σ) →
  ten_digits v →
  ∃ σ1 σ2 R1 R2,
    Record.add_phone self v σ = (Ret tt, σ1)
    ∧ Record.remove_phone self v σ1 = (Ret tt, σ2)
    ∧ record_objs σ1 !! self = Some R1
    ∧ record_objs σ2 !! self = Some R2
    ∧ S (length (phones R2)) = length (phones R1)
    ∧ (v ∉ vs → phone_values self σ2 = (Ret vs, σ2)
                ∧ Record.find_phone self v σ2 = (Ret None, σ2))
    ∧ (v ∈ vs → ∃ q, Record.find_phone self v σ2 = (Ret (Some q), σ2)).
Proof.
  intros HR Hvs Hv.
  apply phone_values_inv in Hvs as (R' & HR' & Hvs).
  rewrite HR in HR'. injection HR' as <-.
  set (n := length (phone_objs σ)).
  set (R1 := mkRecord (name R) (phones R ++ [n])).
  set (σ1 := with_phones (with_new_phone σ v) self R (phones R ++ [n])).
  assert (Hlt : self < length (record_objs σ)) by by eapply lookup_lt_Some.
  assert (HR1 : record_objs σ1 !! self = Some R1)
    by by apply list_lookup_insert_eq.
  assert (Hvs1 : Forall2 (holds σ1) (phones R1) (vs ++ [v]))
    by by apply holds_new_phone.
  destruct (first_at_exists v (vs ++ [v])) as [i Hi]; [set_solver |].
  set (R2 := mkRecord (name R1) (delete i (phones R1))).
  set (σ2 := with_phones σ1 self R1 (delete i (phones R1))).
  assert (HR2 : record_objs σ2 !! self = Some R2).
  { apply list_lookup_insert_eq. by eapply lookup_lt_Some. }
  assert (Hvs2 : Forall2 (holds σ2) (phones R2) (delete i (vs ++ [v])))
    by by apply Forall2_delete.
  assert (Hi' : is_Some (phones R1 !! i)).
  { destruct Hi as [Hi _].
    destruct (Forall2_lookup_r _ _ _ _ _ Hvs1 Hi) as (p & Hp & _). by exists p. }
  exists σ1, σ2, R1, R2.
  split; [by apply add_phone_valid |].
  split; [by eapply remove_phone_first |].
  split; [done |]. split; [done |]. split; [| split].
  - change (S (length (delete i (phones R1))) = length (phones R1)).
    rewrite length_delete by done.
    apply lookup_lt_is_Some in Hi'. lia.
  - intros Hnot.
    destruct (first_at_app_new v vs i Hi) as [[_ ->] | [Hin _]]; [| done].
    rewrite delete_take_drop, take_app_length, drop_ge in Hvs2
      by (rewrite length_app; simpl; lia).
    rewrite app_nil_r in Hvs2.
    split; [by eapply phone_values_intro | by eapply find_phone_absent].
  - intros Hin.
    destruct (first_at_app_new v vs i Hi) as [[Hnot _] | [_ Hlti]]; [done |].
    rewrite delete_take_drop, take_app_le, drop_app_le in Hvs2 by lia.
    destruct (first_at_exists v (take i vs ++ drop (S i) vs ++ [v])) as [j Hj];
      [set_solver |].
    destruct (find_phone_first σ2 self R2 _ v j HR2 Hvs2 Hj) as (q & _ & _ & Hq).
    eauto.
Qed.

(** * The address book *)

(** C4. When the book has a record under the name of [record],
    [add_record] raises [RecordAlreadyExistsException], an exception that
    is no [ValueError], and the store is as before: the book still finds
    the record it had under that name. *)
Theorem add_record_existing (σ : State) (self record : ref) (B : AddressBook)
    (R : RecordObj) (n : str) (stored : ref) :
  book_objs σ !! self = Some B →
  record_objs σ !! record = Some R →
  value (name R) = n →
  data B !! n = Some stored →
  AddressBook.add_record self record σ
  = (Raise (RecordAlreadyExistsException
              ("Record with the name '" +:+ n
               +:+ "' already exists in the address book dictionary")), σ)
  ∧ (∀ msg msg', RecordAlreadyExistsException msg ≠ ValueError msg')
  ∧ AddressBook.find self n σ = (Ret (Some stored), σ).
Proof.
  intros HB HR <- Hn. split; [| split].
  - unfold AddressBook.add_record, bind, get_book, get_record.
    rewrite HB, HR, Hn. reflexivity.
  - discriminate.
  - unfold AddressBook.find, bind, get_book. by rewrite HB, Hn.
Qed.

Lemma add_record_new (σ : State) (self record : ref) (B : AddressBook)
    (R : RecordObj) :
  book_objs σ !! self = Some B →
  record_objs σ !! record = Some R →
  data B !! value (name R) = None →
  AddressBook.add_record self record σ
  = (Ret tt, with_data σ self (<[value (name R) := record]> (data B))).
Proof.
  intros HB HR Hn.
  unfold AddressBook.add_record, bind, get_book, get_record.
  rewrite HB, HR, Hn. simpl. unfold set_data. by rewrite HB.
Qed.

Lemma find_with_data (σ : State) (self : ref) (B : AddressBook)
    (d : gmap str ref) (k : str) :
  book_objs σ !! self = Some B →
  AddressBook.find self k (with_data σ self d) = (Ret (d !! k), with_data σ self d).
Proof.
  intros HB. unfold AddressBook.find, bind, get_book, with_data. simpl.
  rewrite list_lookup_insert_eq by by eapply lookup_lt_Some. reflexivity.
Qed.

(** C7. [delete] of a name that is no key returns and leaves the store as
    it is; [delete] of a key returns with that entry gone from the book and
    every other entry as before. *)
Theorem delete_spec (σ : State) (self : ref) (B : AddressBook) (n : str) :
  book_objs σ !! self = Some B →
  (data B !! n = None → AddressBook.delete self n σ = (Ret tt, σ))
  ∧ (is_Some (data B !! n) →
     ∃ σ', AddressBook.delete self n σ = (Ret tt, σ')
           ∧ σ' = with_data σ self (delete n (data B))
           ∧ AddressBook.find self n σ' = (Ret None, σ')
           ∧ ∀ k, k ≠ n → AddressBook.find self k σ' = (Ret (data B !! k), σ')).
Proof.
  intros HB. split.
  - intros Hn. unfold AddressBook.delete, bind, get_book. by rewrite HB, Hn.
  - intros [r Hn]. eexists. split; [| split; [reflexivity |]].
    + unfold AddressBook.delete, bind, get_book, dict_pop.
      rewrite HB, Hn. simpl. unfold set_data. by rewrite HB.
    + split.
      * rewrite (find_with_data σ self B) by done. by rewrite lookup_delete_eq.
      * intros k Hk. rewrite (find_with_data σ self B) by done.
        by rewrite lookup_delete_ne.
Qed.

(** * Names and keys along a program *)

Lemma names_kept_refl (σ : State) : names_kept σ σ.
Proof. split; [reflexivity | eauto]. Qed.

Lemma names_kept_trans (σ1 σ2 σ3 : State) :
  names_kept σ1 σ2 → names_kept σ2 σ3 → names_kept σ1 σ3.
Proof.
  intros [Hb1 Hr1] [Hb2 Hr2]. split; [congruence |].
  intros r R HR. destruct (Hr1 r R HR) as (R2 & HR2 & Hn2).
  destruct (Hr2 r R2 HR2) as (R3 & HR3 & Hn3).
  exists R3. split; [done | congruence].
Qed.

Lemma names_kept_consistent (σ σ' : State) :
  names_kept σ σ' → key_consistent σ → key_consistent σ'.
Proof.
  intros [Hb Hr] Hk b B k r HB Hkr. rewrite Hb in HB.
  destruct (Hk b B k r HB Hkr) as (R & HR & Hn).
  destruct (Hr r R HR) as (R' & HR' & Hn').
  exists R'. split; [done | congruence].
Qed.

Create HintDb names.

Lemma keeps_names_ret {A} (a : A) : keeps_names (ret a).
Proof. intros σ. apply names_kept_refl. Qed.

Lemma keeps_names_raise {A} (e : exn) : keeps_names (@raise A e).
Proof. intros σ. apply names_kept_refl. Qed.

Lemma keeps_names_bind {A B} (m : M A) (k : A → M B) :
  keeps_names m → (∀ a, keeps_names (k a)) → keeps_names (bind m k).
Proof.
  intros Hm Hk σ. unfold bind. specialize (Hm σ).
  destruct (m σ) as [[a | e |] σ']; simpl in Hm; [| done..].
  eapply names_kept_trans; [exact Hm | apply Hk].
Qed.

Lemma keeps_names_get_phone (p : ref) : keeps_names (get_phone p).
Proof.
  intros σ. unfold get_phone.
  destruct (phone_objs σ !! p); apply names_kept_refl.
Qed.

Lemma keeps_names_get_record (r : ref) : keeps_names (get_record r).
Proof.
  intros σ. unfold get_record.
  destruct (record_objs σ !! r); apply names_kept_refl.
Qed.

Lemma keeps_names_new_phone (f : Phone) : keeps_names (new_phone f).
Proof. intros σ. split; [reflexivity | eauto]. Qed.

Lemma keeps_names_new_record (R : RecordObj) : keeps_names (new_record R).
Proof.
  intros σ. split; [reflexivity |]. simpl. intros r R0 HR0.
  exists R0. split; [by apply lookup_app_l_Some | done].
Qed.

Lemma keeps_names_set_value (p : ref) (v : str) : keeps_names (set_value p v).
Proof.
  intros σ. unfold set_value.
  destruct (phone_objs σ !! p); [| apply names_kept_refl].
  split; [reflexivity | eauto].
Qed.

Lemma keeps_names_set_phones (r : ref) (ps : list ref) :
  keeps_names (set_phones r ps).
Proof.
  intros σ. unfold set_phones.
  destruct (record_objs σ !! r) as [R |] eqn:HR; [| apply names_kept_refl].
  split; [reflexivity |]. intros r0 R0 HR0.
  destruct (decide (r0 = r)) as [-> | Hne].
  - exists (mkRecord (name R) ps). split; [| simpl; congruence].
    simpl. apply list_lookup_insert_eq. by eapply lookup_lt_Some.
  - exists R0. split; [| done]. simpl. by rewrite list_lookup_insert_ne.
Qed.

Lemma keeps_names_list_getitem {A} (l : list A) (idx : option nat) :
  keeps_names (list_getitem l idx).
Proof.
  unfold list_getitem. destruct idx as [i |]; [| apply keeps_names_raise].
  destruct (l !! i); [apply keeps_names_ret | apply keeps_names_raise].
Qed.

Lemma keeps_names_list_pop {A} (l : list A) (idx : option nat) :
  keeps_names (list_pop l idx).
Proof.
  unfold list_pop. destruct idx as [i |]; [| apply keeps_names_raise].
  destruct (i <? length l); [apply keeps_names_ret | apply keeps_names_raise].
Qed.

#[local] Hint Resolve keeps_names_ret keeps_names_raise keeps_names_bind
  keeps_names_get_phone keeps_names_get_record keeps_names_new_phone
  keeps_names_new_record keeps_names_set_value keeps_names_set_phones
  keeps_names_list_getitem keeps_names_list_pop : names.

Lemma keeps_names_phone_init (phone : str) : keeps_names (Phone.__init__ phone).
Proof. unfold Phone.__init__. case_match; auto with names. Qed.

Lemma keeps_names_scan (ps : list ref) (idx : nat) (phone_num : str) :
  keeps_names (Record.scan ps idx phone_num).
Proof.
  revert idx. induction ps as [| p ps IH]; intros idx; simpl; [auto with names |].
  apply keeps_names_bind; [auto with names |].
  intros f. case_match; auto with names.
Qed.

#[local] Hint Resolve keeps_names_phone_init keeps_names_scan : names.

Lemma keeps_names_get_phone_by_number (self : ref) (phone_num : str) :
  keeps_names (Record.get_phone_by_number self phone_num).
Proof. unfold Record.get_phone_by_number. auto with names. Qed.

#[local] Hint Resolve keeps_names_get_phone_by_number : names.

Lemma keeps_names_record_init (n : str) : keeps_names (Record.__init__ n).
Proof. unfold Record.__init__. auto with names. Qed.

Lemma keeps_names_add_phone (self : ref) (phone_num : str) :
  keeps_names (Record.add_phone self phone_num).
Proof. unfold Record.add_phone. auto 6 with names. Qed.

Lemma keeps_names_edit_phone (self : ref) (old_phone new_phone : str) :
  keeps_names (Record.edit_phone self old_phone new_phone).
Proof.
  unfold Record.edit_phone.
  apply keeps_names_bind; [auto with names |]. intros [found_phone idx].
  apply keeps_names_bind; [auto with names |]. intros R.
  case_match; auto with names.
Qed.

Lemma keeps_names_remove_phone (self : ref) (phone_num : str) :
  keeps_names (Record.remove_phone self phone_num).
Proof.
  unfold Record.remove_phone.
  apply keeps_names_bind; [auto with names |]. intros [found_phone idx].
  auto 6 with names.
Qed.

Lemma keeps_names_find_phone (self : ref) (phone_num : str) :
  keeps_names (Record.find_phone self phone_num).
Proof.
  unfold Record.find_phone.
  apply keeps_names_bind; [auto with names |]. intros [found_phone idx].
  auto with names.
Qed.

Lemma with_data_consistent (σ : State) (b : ref) (B : AddressBook)
    (d : gmap str ref) :
  book_objs σ !! b = Some B →
  (∀ k r, d !! k = Some r →
          data B !! k = Some r
          ∨ ∃ R, record_objs σ !! r = Some R ∧ value (name R) = k) →
  key_consistent σ → key_consistent (with_data σ b d).
Proof.
  intros HB Hd Hk b' B' k r HB' Hkr. simpl in *.
  destruct (decide (b' = b)) as [-> | Hne].
  - rewrite list_lookup_insert_eq in HB' by by eapply lookup_lt_Some.
    injection HB' as <-. simpl in Hkr.
    destruct (Hd k r Hkr) as [Hold | Hnew]; [by eapply Hk | done].
  - rewrite list_lookup_insert_ne in HB' by done. by eapply Hk.
Qed.

Lemma book_init_consistent (σ : State) :
  key_consistent σ → key_consistent (AddressBook.__init__ σ).2.
Proof.
  intros Hk b B k r HB Hkr. cbn [AddressBook.__init__ new_book snd book_objs] in HB.
  apply lookup_app_Some in HB as [HB | [_ HB]]; [by eapply Hk |].
  apply list_lookup_singleton_Some in HB as [_ <-].
  cbn [data] in Hkr. by rewrite lookup_empty in Hkr.
Qed.

Lemma add_record_consistent (σ : State) (self record : ref) :
  key_consistent σ → key_consistent (AddressBook.add_record self record σ).2.
Proof.
  intros Hk. unfold AddressBook.add_record, bind, get_book, get_record.
  destruct (book_objs σ !! self) as [B |] eqn:HB; [| done].
  destruct (record_objs σ !! record) as [R |] eqn:HR; [| done].
  destruct (negb _); [| done].
  unfold set_data. rewrite HB. simpl.
  apply (with_data_consistent σ self B); [done | | done].
  intros k r Hkr. apply lookup_insert_Some in Hkr as [[<- <-] | [_ Hkr]]; eauto.
Qed.

Lemma find_state (σ : State) (self : ref) (n : str) :
  (AddressBook.find self n σ).2 = σ.
Proof.
  unfold AddressBook.find, bind, get_book.
  by destruct (book_objs σ !! self).
Qed.

Lemma delete_consistent (σ : State) (self : ref) (n : str) :
  key_consistent σ → key_consistent (AddressBook.delete self n σ).2.
Proof.
  intros Hk. unfold AddressBook.delete, bind, get_book, dict_pop.
  destruct (book_objs σ !! self) as [B |] eqn:HB; [| done].
  destruct (data B !! n) as [r |] eqn:Hn; [| done]. simpl.
  unfold set_data. rewrite HB. simpl.
  apply (with_data_consistent σ self B); [done | | done].
  intros k r' Hkr. apply lookup_delete_Some in Hkr as [_ Hkr]. by left.
Qed.

Lemma exec_consistent (c : call) (σ : State) :
  key_consistent σ → key_consistent (exec c σ).
Proof.
  intros Hk. destruct c; simpl.
  - eapply names_kept_consistent; [apply keeps_names_record_init | done].
  - by apply book_init_consistent.
  - eapply names_kept_consistent; [apply keeps_names_add_phone | done].
  - eapply names_kept_consistent; [apply keeps_names_edit_phone | done].
  - eapply names_kept_consistent; [apply keeps_names_remove_phone | done].
  - eapply names_kept_consistent; [apply keeps_names_find_phone | done].
  - by apply add_record_consistent.
  - by rewrite find_state.
  - by apply delete_consistent.
Qed.

Lemma run_consistent (cs : list call) (σ : State) :
  key_consistent σ → key_consistent (run cs σ).
Proof.
  revert σ. induction cs as [| c cs IH]; intros σ Hk; [done |].
  apply IH. by apply exec_consistent.
Qed.

(** C8. After any sequence of calls of the constructors and the public
    methods, started with no object, every key of every book is the name of
    the record stored under it, and no book has a key twice. *)
Theorem key_consistency (cs : list call) :
  key_consistent (run cs empty_state) ∧ keys_unique (run cs empty_state).
Proof.
  split.
  - apply run_consistent. intros b B k r HB.
    cbn [empty_state book_objs] in HB. by rewrite lookup_nil in HB.
  - intros b B _. apply NoDup_fst_map_to_list.
Qed.

(** * Phone lists along a program *)

Lemma scan_state (ps : list ref) (idx : nat) (phone_num : str) (σ : State) :
  (Record.scan ps idx phone_num σ).2 = σ.
Proof.
  revert idx. induction ps as [| p ps IH]; intros idx; [reflexivity |].
  simpl. unfold bind, get_phone.
  destruct (phone_objs σ !! p) as [f |]; [| reflexivity].
  destruct (Str.eqb (value f) phone_num); [reflexivity | apply IH].
Qed.

Lemma get_phone_by_number_state (self : ref) (phone_num : str) (σ : State) :
  (Record.get_phone_by_number self phone_num σ).2 = σ.
Proof.
  unfold Record.get_phone_by_number, bind, get_record.
  destruct (record_objs σ !! self); [apply scan_state | reflexivity].
Qed.

Lemma allocated_same (σ σ' : State) :
  phone_objs σ' = phone_objs σ → record_objs σ' = record_objs σ →
  phones_allocated σ → phones_allocated σ'.
Proof. intros Hp Hr H r R HR. rewrite Hp. rewrite Hr in HR. by eapply H. Qed.

Lemma allocated_with_value (σ : State) (p : ref) (v : str) :
  phones_allocated σ → phones_allocated (with_value σ p v).
Proof.
  intros H r R HR. cbn [with_value phone_objs]. rewrite length_insert.
  by eapply H.
Qed.

Lemma allocated_with_phones (σ : State) (r : ref) (R : RecordObj) (ps : list ref) :
  Forall (λ p, p < length (phone_objs σ)) ps →
  phones_allocated σ → phones_allocated (with_phones σ r R ps).
Proof.
  intros Hps H r0 R0 HR0. cbn [with_phones phone_objs record_objs] in *.
  apply list_lookup_insert_Some in HR0 as [(-> & <- & _) | (_ & HR0)];
    [exact Hps | by eapply H].
Qed.

Lemma allocated_with_new_phone (σ : State) (v : str) :
  phones_allocated σ → phones_allocated (with_new_phone σ v).
Proof.
  intros H r R HR. cbn [with_new_phone phone_objs record_objs] in *.
  eapply Forall_impl; [by eapply H |].
  intros p Hp. rewrite length_app. simpl in *. lia.
Qed.

Lemma add_phone_allocated (self : ref) (phone_num : str) (σ : State) :
  phones_allocated σ → phones_allocated (Record.add_phone self phone_num σ).2.
Proof.
  intros H. unfold Record.add_phone, bind, get_record.
  destruct (record_objs σ !! self) as [R |] eqn:HR; [| done].
  unfold Phone.__init__.
  destruct (negb (Str.length phone_num =? 10) || _); [done |].
  cbn [new_phone]. unfold set_phones. cbn [record_objs phone_objs]. rewrite HR.
  apply (allocated_with_phones (with_new_phone σ phone_num));
    [| by apply allocated_with_new_phone].
  cbn [with_new_phone phone_objs]. rewrite length_app. simpl.
  apply Forall_app. split.
  - eapply Forall_impl; [by eapply H |]. intros p Hp. simpl in Hp. lia.
  - constructor; [lia | constructor].
Qed.

Lemma edit_phone_allocated (self : ref) (old_phone new_phone : str) (σ : State) :
  phones_allocated σ →
  phones_allocated (Record.edit_phone self old_phone new_phone σ).2.
Proof.
  intros H. unfold Record.edit_phone, bind.
  pose proof (get_phone_by_number_state self old_phone σ) as Hs.
  destruct (Record.get_phone_by_number self old_phone σ)
    as [[[found_phone idx] | e |] σ1]; simpl in Hs; subst σ1; [| done..].
  unfold get_record. destruct (record_objs σ !! self) as [R |]; [| done].
  destruct (truthy found_phone); [| done].
  unfold list_getitem. destruct idx as [i |]; [| done].
  destruct (phones R !! i) as [p |]; [| done].
  unfold ret, set_value. destruct (phone_objs σ !! p); [| done].
  by apply (allocated_with_value σ p new_phone).
Qed.

Lemma remove_phone_allocated (self : ref) (phone_num : str) (σ : State) :
  phones_allocated σ → phones_allocated (Record.remove_phone self phone_num σ).2.
Proof.
  intros H. unfold Record.remove_phone, bind.
  pose proof (get_phone_by_number_state self phone_num σ) as Hs.
  destruct (Record.get_phone_by_number self phone_num σ)
    as [[[found_phone idx] | e |] σ1]; simpl in Hs; subst σ1; [| done..].
  unfold get_record. destruct (record_objs σ !! self) as [R |] eqn:HR; [| done].
  unfold list_pop. destruct idx as [i |]; [| done].
  destruct (i <? length (phones R)); [| done].
  unfold ret, set_phones. rewrite HR.
  apply (allocated_with_phones σ self R); [| done].
  apply Forall_delete. by eapply H.
Qed.

Lemma find_phone_state (self : ref) (phone_num : str) (σ : State) :
  (Record.find_phone self phone_num σ).2 = σ.
Proof.
  unfold Record.find_phone, bind.
  pose proof (get_phone_by_number_state self phone_num σ) as Hs.
  by destruct (Record.get_phone_by_number self phone_num σ)
    as [[[found_phone idx] | e |] σ1].
Qed.

Lemma add_record_records (self record : ref) (σ : State) :
  phone_objs (AddressBook.add_record self record σ).2 = phone_objs σ
  ∧ record_objs (AddressBook.add_record self record σ).2 = record_objs σ.
Proof.
  unfold AddressBook.add_record, bind, get_book, get_record.
  destruct (book_objs σ !! self) as [B |] eqn:HB; [| done].
  destruct (record_objs σ !! record) as [R |]; [| done].
  destruct (negb _); [| done]. unfold set_data. by rewrite HB.
Qed.

Lemma delete_records (self : ref) (n : str) (σ : State) :
  phone_objs (AddressBook.delete self n σ).2 = phone_objs σ
  ∧ record_objs (AddressBook.delete self n σ).2 = record_objs σ.
Proof.
  unfold AddressBook.delete, bind, get_book, dict_pop.
  destruct (book_objs σ !! self) as [B |] eqn:HB; [| done].
  destruct (data B !! n); [| done]. simpl. unfold set_data. by rewrite HB.
Qed.

Lemma exec_allocated (c : call) (σ : State) :
  phones_allocated σ → phones_allocated (exec c σ).
Proof.
  intros H. destruct c as [n | | r v | r v w | r v | r v | b r | b n | b n]; simpl.
  - intros r R HR. cbn [phone_objs record_objs] in *.
    apply lookup_app_Some in HR as [HR | [_ HR]]; [by eapply H |].
    apply list_lookup_singleton_Some in HR as [_ <-]. constructor.
  - by apply (allocated_same σ).
  - by apply add_phone_allocated.
  - by apply edit_phone_allocated.
  - by apply remove_phone_allocated.
  - by rewrite find_phone_state.
  - destruct (add_record_records b r σ). by apply (allocated_same σ).
  - by rewrite find_state.
  - destruct (delete_records b n σ). by apply (allocated_same σ).
Qed.

Lemma run_allocated (cs : list call) (σ : State) :
  phones_allocated σ → phones_allocated (run cs σ).
Proof.
  revert σ. induction cs as [| c cs IH]; intros σ H; [done |].
  apply IH. by apply exec_allocated.
Qed.

Lemma allocated_values (σ : State) (ps : list ref) :
  Forall (λ p, p < length (phone_objs σ)) ps → ∃ vs, Forall2 (holds σ) ps vs.
Proof.
  induction 1 as [| p ps Hp _ [vs IH]]; [by exists [] |].
  apply lookup_lt_is_Some in Hp as [[v] Hv].
  exists (v :: vs). by constructor.
Qed.

(** In a store that a program of calls leaves, the phones of every record
    can be read: the methods meet no reference without an object there. *)
Lemma run_phone_values (cs : list call) (r : ref) (R : RecordObj) :
  record_objs (run cs empty_state) !! r = Some R →
  ∃ vs, phone_values r (run cs empty_state) = (Ret vs, run cs empty_state).
Proof.
  intros HR.
  assert (H : phones_allocated (run cs empty_state)).
  { apply run_allocated. intros r0 R0 HR0.
    cbn [empty_state record_objs] in HR0. by rewrite lookup_nil in HR0. }
  destruct (allocated_values _ _ (H r R HR)) as [vs Hvs].
  exists vs. by eapply phone_values_intro.
Qed.

(** * The string form of a record *)

Lemma join_concat (sep : str) (l : list str) : join sep l = Str.concat sep l.
Proof.
  destruct l as [| x l]; [reflexivity |]. unfold Str.concat.
  revert x. induction l as [| y l IH]; intros x.
  - simpl. by rewrite append_empty_r.
  - change (x +:+ sep +:+ join sep (y :: l)
            = x +:+ sep +:+ y +:+ foldr (λ z acc, sep +:+ z +:+ acc) EmptyStr l).
    by rewrite IH.
Qed.

(** C9. The string form of a record is "Contact name: ", the name,
    ", phones: " and the values of the phones in list order with "; "
    between them; the scenario of the specification (John with 1234567890
    and 5555555555, put in a book, then the first number edited to
    1112223333) prints as the specification says. *)
Theorem str_spec :
  (∀ (σ : State) (self : ref) (R : RecordObj) (vs : list str),
     record_objs σ !! self = Some R →
     phone_values self σ = (Ret vs, σ) →
     Record.__str__ self σ
     = (Ret ("Contact name: " +:+ value (name R) +:+ ", phones: "
             +:+ Str.concat "; " vs), σ))
  ∧ (scenario empty_state).1
    = Ret ("Contact name: John, phones: 1112223333; 5555555555", Some 1).
Proof.
  split; [| reflexivity].
  intros σ self R vs HR Hvs.
  apply phone_values_inv in Hvs as (R' & HR' & Hvs).
  rewrite HR in HR'. injection HR' as <-.
  unfold Record.__str__, bind, get_record. rewrite HR.
  rewrite (values_intro _ vs) by done.
  unfold ret. by rewrite join_concat.
Qed.

(** * Editing without validation *)

(** C2, at a failing input. John has the one phone 1234567890; the string
    12-34 is no valid number and [add_phone] refuses it with [ValueError],
    yet [edit_phone] returns and the phone now has value 12-34. *)
Theorem edit_phone_stores_invalid :
  phone_values 0 john_one_phone = (Ret ["1234567890"], john_one_phone)
  ∧ ¬ ten_digits "12-34"
  ∧ Record.add_phone 0 "12-34" john_one_phone
    = (Raise (ValueError (Phone.error_message "12-34" 5)), john_one_phone)
  ∧ Record.edit_phone 0 "1234567890" "12-34" john_one_phone
    = (Ret tt, with_value john_one_phone 0 "12-34")
  ∧ phone_values 0 (with_value john_one_phone 0 "12-34")
    = (Ret ["12-34"], with_value john_one_phone 0 "12-34").
Proof.
  split; [reflexivity |]. split; [| by repeat split].
  intros [Hlen _]. discriminate Hlen.
Qed.

(** For any new value, valid or not, [edit_phone] returns when the old
    value is there. *)
Lemma edit_phone_never_validates (σ : State) (self : ref) (R : RecordObj)
    (vs : list str) (old new : str) :
  record_objs σ !! self = Some R → phone_values self σ = (Ret vs, σ) →
  old ∈ vs →
  ∃ σ', Record.edit_phone self old new σ = (Ret tt, σ').
Proof.
  intros HR Hvs Hold.
  apply phone_values_inv in Hvs as (R' & HR' & Hvs).
  rewrite HR in HR'. injection HR' as <-.
  destruct (first_at_exists old vs Hold) as [i Hi].
  destruct (edit_phone_first σ self R vs old new i) as (p & _ & _ & He);
    [done.. |].
  eauto.
Qed.

(** * The claims at concrete inputs *)

Example phone_init_separator :
  Phone.__init__ "12345-7890" empty_state
  = (Raise (ValueError "Phone number must have only digits with length 10, but number: '12345-7890' was given with the length 10"),
     empty_state).
Proof. reflexivity. Qed.

Example phone_init_digits_later :
  Phone.__init__ "a1234567890" empty_state
  = (Raise (ValueError "Phone number must have only digits with length 10, but number: 'a1234567890' was given with the length 11"),
     empty_state).
Proof. reflexivity. Qed.

(** Ten decimal digits of another script are a number: the Arabic-Indic
    digits one to nine and zero. *)
Example phone_init_arabic_indic :
  Phone.__init__
    (Str.of_chars [1633; 1634; 1635; 1636; 1637; 1638; 1639; 1640; 1641; 1632]%N)
    empty_state
  = (Ret 0,
     mkState [mkField (Str.of_chars
                         [1633; 1634; 1635; 1636; 1637; 1638; 1639; 1640; 1641; 1632]%N)]
             [] []).
Proof. reflexivity. Qed.

(** The superscript two is no decimal digit, though it is a digit. *)
Example phone_init_superscript :
  ∃ msg,
    Phone.__init__
      (Str.of_chars [49; 50; 51; 52; 53; 54; 55; 56; 57; 178]%N) empty_state
    = (Raise (ValueError msg), empty_state).
Proof. eexists. reflexivity. Qed.

Example phone_init_ten :
  Phone.__init__ "1234567890" empty_state
  = (Ret 0, mkState [mkField "1234567890"] [] []).
Proof. reflexivity. Qed.

Example run_book_with_john :
  book_objs (run [CallAddressBook; CallRecord "John"; CallAddRecord 0 0;
                  CallRecord "Jane"; CallAddRecord 0 1; CallDelete 0 "Jane"]
                 empty_state)
  = [mkBook {["John" := 0]}].
Proof. vm_compute. reflexivity. Qed.

Lemma edit_phone_not_found_witness :
  Record.edit_phone 0 "5555555555" "1112223333" john_one_phone
  = (Raise (ValueError "Phone with the number '5555555555' was not found for the user 'John'"),
     john_one_phone).
Proof.
  apply (edit_phone_not_found john_one_phone 0 (mkRecord (mkField "John") [0])
           ["1234567890"]); [reflexivity | reflexivity | by_decision].
Defined.

Lemma remove_phone_spec_witness :
  Record.remove_phone 0 "5555555555" john_same_twice
  = (Raise TypeError, john_same_twice)
  ∧ ∃ i, first_at "1234567890" ["1234567890"; "1234567890"] i
         ∧ Record.remove_phone 0 "1234567890" john_same_twice
           = (Ret tt, with_phones john_same_twice 0 (mkRecord (mkField "John") [0; 1])
                        (delete i [0; 1])).
Proof.
  pose proof (remove_phone_spec john_same_twice 0 (mkRecord (mkField "John") [0; 1])
                ["1234567890"; "1234567890"]) as H.
  split.
  - destruct (H "5555555555" eq_refl eq_refl) as (Habsent & _ & _).
    apply Habsent. by_decision.
  - destruct (H "1234567890" eq_refl eq_refl) as (_ & Hpresent & _).
    destruct Hpresent as (i & Hi & Hrm & _); [by_decision |]. eauto.
Defined.

Lemma add_record_existing_witness :
  AddressBook.add_record 0 1 two_johns
  = (Raise (RecordAlreadyExistsException
              "Record with the name 'John' already exists in the address book dictionary"),
     two_johns)
  ∧ AddressBook.find 0 "John" two_johns = (Ret (Some 0), two_johns).
Proof.
  destruct (add_record_existing two_johns 0 1 (mkBook {["John" := 0]})
              (mkRecord (mkField "John") []) "John" 0)
    as (Hraise & _ & Hfind); [by vm_compute.. |].
  by split.
Defined.

Lemma delete_spec_witness :
  AddressBook.delete 0 "Jane" two_johns = (Ret tt, two_johns)
  ∧ ∃ σ', AddressBook.delete 0 "John" two_johns = (Ret tt, σ')
          ∧ AddressBook.find 0 "John" σ' = (Ret None, σ').
Proof.
  destruct (delete_spec two_johns 0 (mkBook {["John" := 0]}) "Jane")
    as [Habsent _]; [by vm_compute |].
  destruct (delete_spec two_johns 0 (mkBook {["John" := 0]}) "John")
    as [_ Hpresent]; [by vm_compute |].
  split; [by apply Habsent |].
  destruct Hpresent as (σ' & Hdel & _ & Hfind & _); [by exists 0 |]. eauto.
Defined.

Lemma str_spec_witness :
  Record.__str__ 0 john_same_twice
  = (Ret "Contact name: John, phones: 1234567890; 1234567890", john_same_twice).
Proof.
  exact (proj1 str_spec john_same_twice 0 (mkRecord (mkField "John") [0; 1])
           ["1234567890"; "1234567890"] eq_refl eq_refl).
Defined.

(** C5 at two failing inputs. John has the number 1234567890 twice: after
    [edit_phone "1234567890" "1112223333"] the second phone still has the
    old value, and [find_phone "1234567890"] returns it, not [None]. John
    has the number once and it is edited to itself: [find_phone] of the old
    value returns the edited phone, not [None]. *)
Lemma edit_then_find_counterexample :
  (phone_values 0 john_same_twice
   = (Ret ["1234567890"; "1234567890"], john_same_twice)
   ∧ ten_digits "1112223333"
   ∧ Record.edit_phone 0 "1234567890" "1112223333" john_same_twice
     = (Ret tt, with_value john_same_twice 0 "1112223333")
   ∧ Record.find_phone 0 "1234567890" (with_value john_same_twice 0 "1112223333")
     = (Ret (Some 1), with_value john_same_twice 0 "1112223333")
   ∧ Record.find_phone 0 "1234567890" (with_value john_same_twice 0 "1112223333")
     ≠ (Ret None, with_value john_same_twice 0 "1112223333"))
  ∧ (phone_values 0 john_one_phone = (Ret ["1234567890"], john_one_phone)
     ∧ ten_digits "1234567890"
     ∧ Record.edit_phone 0 "1234567890" "1234567890" john_one_phone
       = (Ret tt, with_value john_one_phone 0 "1234567890")
     ∧ Record.find_phone 0 "1234567890" (with_value john_one_phone 0 "1234567890")
       = (Ret (Some 0), with_value john_one_phone 0 "1234567890")).
Proof.
  split.
  - split; [reflexivity |]. split; [by apply phone_check |].
    split; [reflexivity |]. split; [reflexivity | discriminate].
  - split; [reflexivity |]. split; [by apply phone_check |].
    split; reflexivity.
Qed.

Lemma edit_then_find_witness :
  ∃ i p σ',
    first_at "1234567890" ["1234567890"; "5555555555"] i
    ∧ [0; 1] !! i = Some p
    ∧ Record.edit_phone 0 "1234567890" "1112223333"
        (store_of (record_with "John" ["1234567890"; "5555555555"]))
      = (Ret tt, σ')
    ∧ Record.find_phone 0 "1112223333" σ' = (Ret (Some p), σ')
    ∧ Record.find_phone 0 "1234567890" σ' = (Ret None, σ').
Proof.
  destruct (edit_then_find
              (store_of (record_with "John" ["1234567890"; "5555555555"]))
              0 (mkRecord (mkField "John") [0; 1])
              ["1234567890"; "5555555555"] "1234567890" "1112223333")
    as (i & p & σ' & Hi & Hp & _ & Hedit & _ & Hnew & Hold);
    [reflexivity | reflexivity | by_decision | by apply phone_check |].
  exists i, p, σ'. split; [done |]. split; [done |]. split; [done |].
  assert (i = 0) as ->.
  { eapply first_at_unique; [exact Hi |].
    split; [reflexivity | apply not_elem_of_nil]. }
  split; [apply Hnew; by_decision | apply Hold; [done | by_decision]].
Defined.

(** C6 at a failing input: John already has 1234567890; after [add_phone]
    and [remove_phone] of that number the list has one phone less than
    after the add, yet [find_phone] still returns a phone, not [None]. *)
Lemma add_then_remove_counterexample :
  phone_values 0 john_one_phone = (Ret ["1234567890"], john_one_phone)
  ∧ ten_digits "1234567890"
  ∧ Record.add_phone 0 "1234567890" john_one_phone = (Ret tt, john_added_again)
  ∧ Record.remove_phone 0 "1234567890" john_added_again
    = (Ret tt, john_removed_once)
  ∧ Record.find_phone 0 "1234567890" john_removed_once
    = (Ret (Some 1), john_removed_once)
  ∧ Record.find_phone 0 "1234567890" john_removed_once
    ≠ (Ret None, john_removed_once).
Proof.
  split; [reflexivity |]. split; [by apply phone_check |].
  split; [reflexivity |]. split; [reflexivity |].
  split; [reflexivity | discriminate].
Qed.

Lemma add_then_remove_witness :
  ∃ σ1 σ2 R1 R2,
    Record.add_phone 0 "5555555555" john_one_phone = (Ret tt, σ1)
    ∧ Record.remove_phone 0 "5555555555" σ1 = (Ret tt, σ2)
    ∧ record_objs σ1 !! 0 = Some R1
    ∧ record_objs σ2 !! 0 = Some R2
    ∧ S (length (phones R2)) = length (phones R1)
    ∧ Record.find_phone 0 "5555555555" σ2 = (Ret None, σ2).
Proof.
  destruct (add_then_remove john_one_phone 0 (mkRecord (mkField "John") [0])
              ["1234567890"] "5555555555")
    as (σ1 & σ2 & R1 & R2 & Hadd & Hrm & HR1 & HR2 & Hlen & Hnew & _);
    [reflexivity | reflexivity | by apply phone_check |].
  exists σ1, σ2, R1, R2. repeat (split; [done |]).
  apply Hnew. by_decision.
Defined.

(** * Beyond the claims: adding and finding *)

Lemma phone_init_cases (v : str) (σ : State) :
  (ten_digits v
   ∧ Phone.__init__ v σ = (Ret (length (phone_objs σ)), with_new_phone σ v))
  ∨ (¬ ten_digits v
     ∧ Phone.__init__ v σ
       = (Raise (ValueError (Phone.error_message v (Str.length v))), σ)).
Proof.
  unfold Phone.__init__.
  destruct (negb (Str.length v =? 10)
            || negb (Str.length (Phone.numbers v) =? Str.length v)) eqn:E.
  - right. split; [| reflexivity]. intros H%phone_check. congruence.
  - left. split; [by apply phone_check | reflexivity].
Qed.

(** X1. [add_phone] of a string that is no valid number raises the
    [ValueError] of the phone constructor, and the store is as before. *)
Theorem add_phone_invalid (σ : State) (self : ref) (R : RecordObj) (v : str) :
  record_objs σ !! self = Some R →
  ¬ ten_digits v →
  Record.add_phone self v σ
  = (Raise (ValueError (Phone.error_message v (Str.length v))), σ).
Proof.
  intros HR Hv. unfold Record.add_phone, bind, get_record. rewrite HR.
  destruct (phone_init_cases v σ) as [[Hv' _] | [_ ->]]; done.
Qed.

(** X2. [add_phone] of a valid number puts a new phone object at the end
    of the list, whether or not the number is there already; the other
    records and the books are as before. *)
Theorem add_phone_appends (σ : State) (self : ref) (R : RecordObj)
    (vs : list str) (v : str) :
  record_objs σ !! self = Some R →
  phone_values self σ = (Ret vs, σ) →
  ten_digits v →
  ∃ σ', Record.add_phone self v σ = (Ret tt, σ')
        ∧ phone_values self σ' = (Ret (vs ++ [v]), σ')
        ∧ record_objs σ' !! self
          = Some (mkRecord (name R) (phones R ++ [length (phone_objs σ)]))
        ∧ phone_objs σ !! length (phone_objs σ) = None
        ∧ (∀ r, r ≠ self → record_objs σ' !! r = record_objs σ !! r)
        ∧ book_objs σ' = book_objs σ.
Proof.
  intros HR Hvs Hv.
  apply phone_values_inv in Hvs as (R' & HR' & Hvs).
  rewrite HR in HR'. injection HR' as <-.
  eexists. split; [by apply add_phone_valid |].
  split; [| split; [| split; [| split]]].
  - apply (phone_values_with_phones (with_new_phone σ v)); [done |].
    by apply holds_new_phone.
  - cbn [with_phones record_objs with_new_phone].
    apply list_lookup_insert_eq. by eapply lookup_lt_Some.
  - by apply lookup_ge_None.
  - intros r Hr. cbn [with_phones record_objs with_new_phone].
    by rewrite list_lookup_insert_ne.
  - reflexivity.
Qed.

(** X3. After [add_phone] of a valid number, [find_phone] of that number
    returns a phone with that value: the new object when the number was
    not in the list, an older one when it was. *)
Theorem add_then_find (σ : State) (self : ref) (R : RecordObj)
    (vs : list str) (v : str) :
  record_objs σ !! self = Some R →
  phone_values self σ = (Ret vs, σ) →
  ten_digits v →
  ∃ σ' q, Record.add_phone self v σ = (Ret tt, σ')
          ∧ Record.find_phone self v σ' = (Ret (Some q), σ')
          ∧ holds σ' q v
          ∧ (v ∉ vs → q = length (phone_objs σ))
          ∧ (v ∈ vs → q < length (phone_objs σ)).
Proof.
  intros HR Hvs Hv.
  apply phone_values_inv in Hvs as (R' & HR' & Hvs).
  rewrite HR in HR'. injection HR' as <-.
  set (n := length (phone_objs σ)).
  set (σ' := with_phones (with_new_phone σ v) self R (phones R ++ [n])).
  assert (HR1 : record_objs σ' !! self = Some (mkRecord (name R) (phones R ++ [n]))).
  { apply list_lookup_insert_eq. by eapply lookup_lt_Some. }
  assert (Hvs1 : Forall2 (holds σ') (phones R ++ [n]) (vs ++ [v]))
    by by apply holds_new_phone.
  destruct (first_at_exists v (vs ++ [v])) as [i Hi];
    [apply elem_of_app; right; apply list_elem_of_here |].
  destruct (find_phone_first σ' self _ _ v i HR1 Hvs1 Hi) as (q & Hq & Hqv & Hf).
  exists σ', q. split; [by apply add_phone_valid |].
  split; [done |]. split; [done |].
  cbn [phones] in Hq. apply Forall2_length in Hvs as Hlen.
  destruct (first_at_app_new v vs i Hi) as [[Hnot ->] | [Hin Hlt]].
  - split; [| done]. intros _.
    rewrite <- Hlen, lookup_app_r, Nat.sub_diag in Hq by lia.
    by injection Hq as <-.
  - split; [done |]. intros _.
    rewrite lookup_app_l in Hq by lia.
    destruct (Forall2_lookup_l _ _ _ _ _ Hvs Hq) as (w & _ & Hw).
    by eapply lookup_lt_Some.
Qed.

(** X4. The search returns either no phone and no index, exactly when no
    phone has the value, or the phone object at the first index whose phone
    has the value together with that index; [find_phone] returns the phone
    of that pair, and neither changes the store. *)
Theorem get_phone_by_number_spec (σ : State) (self : ref) (R : RecordObj)
    (vs : list str) (v : str) :
  record_objs σ !! self = Some R →
  phone_values self σ = (Ret vs, σ) →
  ((v ∉ vs)
   ∧ Record.get_phone_by_number self v σ = (Ret (None, None), σ)
   ∧ Record.find_phone self v σ = (Ret None, σ))
  ∨ (∃ i p, first_at v vs i ∧ phones R !! i = Some p ∧ holds σ p v
            ∧ Record.get_phone_by_number self v σ = (Ret (Some p, Some i), σ)
            ∧ Record.find_phone self v σ = (Ret (Some p), σ)).
Proof.
  intros HR Hvs.
  apply phone_values_inv in Hvs as (R' & HR' & Hvs).
  rewrite HR in HR'. injection HR' as <-.
  destruct (decide (v ∈ vs)) as [Hin | Hnot].
  - right. destruct (first_at_exists v vs Hin) as [i Hi].
    destruct (get_phone_by_number_first σ self R vs v i) as (p & Hp & Hpv & Hg);
      [done.. |].
    exists i, p. repeat (split; [done |]).
    unfold Record.find_phone, bind. by rewrite Hg.
  - left. split; [done |].
    split; [by eapply get_phone_by_number_absent | by eapply find_phone_absent].
Qed.

(** * Beyond the claims: the book and the records in it *)

Lemma with_data_lookup (σ : State) (b : ref) (B : AddressBook) (d : gmap str ref) :
  book_objs σ !! b = Some B →
  book_objs (with_data σ b d) !! b = Some (mkBook d).
Proof.
  intros HB. cbn [with_data book_objs].
  apply list_lookup_insert_eq. by eapply lookup_lt_Some.
Qed.

(** X5. [add_record] of a record whose name is no key of the book returns;
    then [find] of that name returns the very record that was added, [find]
    of any other name returns what it returned before, the book has one
    entry more, and no record and no phone has changed. *)
Theorem add_record_then_find (σ : State) (self record : ref) (B : AddressBook)
    (R : RecordObj) :
  book_objs σ !! self = Some B →
  record_objs σ !! record = Some R →
  data B !! value (name R) = None →
  ∃ σ' B', AddressBook.add_record self record σ = (Ret tt, σ')
           ∧ AddressBook.find self (value (name R)) σ' = (Ret (Some record), σ')
           ∧ (∀ k, k ≠ value (name R) →
                   AddressBook.find self k σ' = (Ret (data B !! k), σ'))
           ∧ book_objs σ' !! self = Some B'
           ∧ size (data B') = S (size (data B))
           ∧ record_objs σ' = record_objs σ
           ∧ phone_objs σ' = phone_objs σ.
Proof.
  intros HB HR Hn.
  exists (with_data σ self (<[value (name R) := record]> (data B))),
         (mkBook (<[value (name R) := record]> (data B))).
  split; [by apply add_record_new |].
  split; [| split; [| split; [| split; [| done]]]].
  - rewrite (find_with_data σ self B) by done. by rewrite lookup_insert_eq.
  - intros k Hk. rewrite (find_with_data σ self B) by done.
    by rewrite lookup_insert_ne.
  - by eapply with_data_lookup.
  - by apply map_size_insert_None.
Qed.

(** X6. [add_record] of a record whose name is no key of the book, then
    [delete] of that name, gives back the store there was. *)
Theorem add_record_then_delete (σ : State) (self record : ref) (B : AddressBook)
    (R : RecordObj) :
  book_objs σ !! self = Some B →
  record_objs σ !! record = Some R →
  data B !! value (name R) = None →
  ∃ σ', AddressBook.add_record self record σ = (Ret tt, σ')
        ∧ AddressBook.delete self (value (name R)) σ' = (Ret tt, σ).
Proof.
  intros HB HR Hn.
  set (n := value (name R)) in *.
  exists (with_data σ self (<[n := record]> (data B))).
  split; [by apply add_record_new |].
  pose proof (with_data_lookup σ self B (<[n := record]> (data B)) HB) as HB'.
  unfold AddressBook.delete, bind, get_book, dict_pop. rewrite HB'.
  cbn [data]. rewrite lookup_insert_eq. cbn [truthy ret].
  unfold set_data. rewrite HB'.
  rewrite delete_insert_eq, delete_id by done.
  cbn [with_data phone_objs record_objs book_objs].
  rewrite list_insert_insert_eq.
  destruct B as [d]. cbn [data]. rewrite list_insert_id by done.
  by destruct σ.
Qed.

(** X7. The book keeps the record itself, not a copy: after [add_record],
    an [add_phone] on the record shows through the book, for [find] of the
    name returns the record, and its phones include the new one. *)
Theorem book_keeps_reference (σ : State) (self record : ref) (B : AddressBook)
    (R : RecordObj) (vs : list str) (v : str) :
  book_objs σ !! self = Some B →
  record_objs σ !! record = Some R →
  data B !! value (name R) = None →
  phone_values record σ = (Ret vs, σ) →
  ten_digits v →
  ∃ σ1 σ2, AddressBook.add_record self record σ = (Ret tt, σ1)
           ∧ Record.add_phone record v σ1 = (Ret tt, σ2)
           ∧ AddressBook.find self (value (name R)) σ2 = (Ret (Some record), σ2)
           ∧ phone_values record σ2 = (Ret (vs ++ [v]), σ2).
Proof.
  intros HB HR Hn Hvs Hv.
  apply phone_values_inv in Hvs as (R' & HR' & Hvs).
  rewrite HR in HR'. injection HR' as <-.
  set (σ1 := with_data σ self (<[value (name R) := record]> (data B))).
  assert (HR1 : record_objs σ1 !! record = Some R) by done.
  exists σ1. eexists. split; [by apply add_record_new |].
  split; [by apply add_phone_valid |]. split.
  - unfold AddressBook.find, bind, get_book.
    cbn [with_phones with_new_phone book_objs].
    pose proof (with_data_lookup σ self B (<[value (name R) := record]> (data B)) HB)
      as HB1.
    fold σ1 in HB1. rewrite HB1.
    cbn [data ret]. by rewrite lookup_insert_eq.
  - apply (phone_values_with_phones (with_new_phone σ1 v)); [done |].
    by apply (holds_new_phone σ1).
Qed.

(** X8. A constructor or a method of [Record] changes no book, and a
    constructor or a method of [AddressBook] changes no record and no
    phone, whatever the references and whether the call returns or
    raises. *)
Theorem calls_keep_apart (c : call) (σ : State) :
  if on_record c
  then book_objs (exec c σ) = book_objs σ
  else phone_objs (exec c σ) = phone_objs σ
       ∧ record_objs (exec c σ) = record_objs σ.
Proof.
  destruct c as [n | | r v | r v w | r v | r v | b r | b n | b n];
    cbn [on_record exec].
  - apply keeps_names_record_init.
  - done.
  - apply keeps_names_add_phone.
  - apply keeps_names_edit_phone.
  - apply keeps_names_remove_phone.
  - apply keeps_names_find_phone.
  - apply add_record_records.
  - by rewrite find_state.
  - apply delete_records.
Qed.

(** * Beyond the claims: valid numbers along a program *)

Lemma remove_phone_phone_objs (self : ref) (phone_num : str) (σ : State) :
  phone_objs (Record.remove_phone self phone_num σ).2 = phone_objs σ.
Proof.
  unfold Record.remove_phone, bind.
  pose proof (get_phone_by_number_state self phone_num σ) as Hs.
  destruct (Record.get_phone_by_number self phone_num σ)
    as [[[found_phone idx] | e |] σ1]; simpl in Hs; subst σ1; [| done..].
  unfold get_record. destruct (record_objs σ !! self) as [R |] eqn:HR; [| done].
  unfold list_pop. destruct idx as [i |]; [| done].
  destruct (i <? length (phones R)); [| done].
  unfold ret, set_phones. by rewrite HR.
Qed.

Lemma add_phone_valid_values (self : ref) (phone_num : str) (σ : State) :
  values_valid σ → values_valid (Record.add_phone self phone_num σ).2.
Proof.
  intros H. unfold Record.add_phone, bind, get_record.
  destruct (record_objs σ !! self) as [R |] eqn:HR; [| done].
  destruct (phone_init_cases phone_num σ) as [[Hv ->] | [_ ->]]; [| done].
  unfold set_phones. cbn [with_new_phone record_objs]. rewrite HR.
  unfold values_valid. cbn [snd phone_objs].
  apply Forall_app. split; [done |]. by constructor.
Qed.

Lemma exec_valid_values (c : call) (σ : State) :
  is_edit c = false → values_valid σ → values_valid (exec c σ).
Proof.
  intros Hc H. unfold values_valid in *.
  destruct c as [n | | r v | r v w | r v | r v | b r | b n | b n];
    try discriminate Hc; cbn [exec].
  - done.
  - done.
  - by apply add_phone_valid_values.
  - by rewrite remove_phone_phone_objs.
  - by rewrite find_phone_state.
  - by destruct (add_record_records b r σ) as [-> _].
  - by rewrite find_state.
  - by destruct (delete_records b n σ) as [-> _].
Qed.

Lemma run_valid_values (cs : list call) (σ : State) :
  Forall (λ c, is_edit c = false) cs → values_valid σ → values_valid (run cs σ).
Proof.
  intros Hcs. revert σ. induction Hcs as [| c cs Hc _ IH]; intros σ H; [done |].
  apply IH. by apply exec_valid_values.
Qed.

(** X9. In the store that a program leaves which never calls [edit_phone],
    every phone of every record has a valid number: the constructor keeps
    other strings out, and no other method writes a value. *)
Theorem valid_without_edit (cs : list call) (r : ref) (vs : list str) :
  Forall (λ c, is_edit c = false) cs →
  phone_values r (run cs empty_state) = (Ret vs, run cs empty_state) →
  Forall ten_digits vs.
Proof.
  intros Hcs Hvs.
  apply phone_values_inv in Hvs as (R & _ & Hvs).
  assert (H : values_valid (run cs empty_state))
    by (apply run_valid_values; [done | constructor]).
  apply Forall_lookup. intros i v Hv.
  destruct (Forall2_lookup_r _ _ _ _ _ Hvs Hv) as (p & _ & Hp).
  unfold values_valid in H. rewrite Forall_lookup in H.
  apply (H p (mkField v) Hp).
Qed.

(** * Beyond the claims: who owns a phone object *)

Lemma owned_same_records (σ σ' : State) :
  record_objs σ' = record_objs σ → phones_owned σ → phones_owned σ'.
Proof. intros Hr H r1 R1 r2 R2 i j p. rewrite Hr. apply H. Qed.

(** A phone list replaced by one whose entries come, one to one, from the
    list that was there. *)
Lemma owned_with_phones (σ : State) (self : ref) (R : RecordObj)
    (ps : list ref) (f : nat → nat) :
  record_objs σ !! self = Some R →
  (∀ i p, ps !! i = Some p → phones R !! f i = Some p) →
  (∀ i j, f i = f j → i = j) →
  phones_owned σ → phones_owned (with_phones σ self R ps).
Proof.
  intros HR Hf Hinj H.
  assert (Hold : ∀ r R' i p,
    record_objs (with_phones σ self R ps) !! r = Some R' →
    phones R' !! i = Some p →
    ∃ R0, record_objs σ !! r = Some R0
          ∧ phones R0 !! (if decide (r = self) then f i else i) = Some p).
  { intros r R' i p HR' Hp. cbn [with_phones record_objs] in HR'.
    apply list_lookup_insert_Some in HR' as [(-> & <- & _) | (Hne & HR')].
    - exists R. rewrite decide_True by done. split; [done | by apply Hf].
    - exists R'. rewrite decide_False by done. done. }
  intros r1 R1 r2 R2 i j p HR1 HR2 Hi Hj.
  destruct (Hold r1 R1 i p HR1 Hi) as (R1' & HR1' & Hi').
  destruct (Hold r2 R2 j p HR2 Hj) as (R2' & HR2' & Hj').
  destruct (H r1 R1' r2 R2' _ _ p HR1' HR2' Hi' Hj') as [-> Hij].
  split; [done |]. destruct (decide (r2 = self)); [by apply Hinj | done].
Qed.

Lemma lookup_delete_from (l : list ref) (k i : nat) (p : ref) :
  delete k l !! i = Some p → l !! (if decide (i < k) then i else S i) = Some p.
Proof.
  intros H. destruct (decide (i < k)).
  - by rewrite list_lookup_delete_lt in H.
  - by rewrite list_lookup_delete_ge in H by lia.
Qed.

Lemma remove_phone_owned (self : ref) (phone_num : str) (σ : State) :
  phones_owned σ → phones_owned (Record.remove_phone self phone_num σ).2.
Proof.
  intros H. unfold Record.remove_phone, bind.
  pose proof (get_phone_by_number_state self phone_num σ) as Hs.
  destruct (Record.get_phone_by_number self phone_num σ)
    as [[[found_phone idx] | e |] σ1]; simpl in Hs; subst σ1; [| done..].
  unfold get_record. destruct (record_objs σ !! self) as [R |] eqn:HR; [| done].
  unfold list_pop. destruct idx as [k |]; [| done].
  destruct (k <? length (phones R)); [| done].
  unfold ret, set_phones. rewrite HR.
  apply (owned_with_phones σ self R _ (λ i, if decide (i < k) then i else S i));
    [done | | | done].
  - intros i p. apply lookup_delete_from.
  - intros i j. repeat case_decide; lia.
Qed.

Lemma add_phone_owned (self : ref) (phone_num : str) (σ : State) :
  phones_allocated σ → phones_owned σ →
  phones_owned (Record.add_phone self phone_num σ).2.
Proof.
  intros Ha H. unfold Record.add_phone, bind, get_record.
  destruct (record_objs σ !! self) as [R |] eqn:HR; [| done].
  destruct (phone_init_cases phone_num σ) as [[_ ->] | [_ ->]]; [| done].
  unfold set_phones. cbn [with_new_phone record_objs]. rewrite HR.
  cbn [snd]. set (n := length (phone_objs σ)).
  assert (Hold : ∀ r R' i p,
    <[self := mkRecord (name R) (phones R ++ [n])]> (record_objs σ) !! r = Some R' →
    phones R' !! i = Some p →
    (r = self ∧ i = length (phones R) ∧ p = n)
    ∨ (p < n ∧ ∃ R0, record_objs σ !! r = Some R0 ∧ phones R0 !! i = Some p)).
  { intros r R' i p HR' Hp.
    apply list_lookup_insert_Some in HR' as [(-> & <- & _) | (Hne & HR')].
    - cbn [phones] in Hp. apply lookup_app_Some in Hp as [Hp | [Hge Hp]].
      + right. split; [| by eauto].
        pose proof (Ha _ _ HR) as Hall. rewrite Forall_lookup in Hall.
        by apply (Hall i p).
      + left. apply list_lookup_singleton_Some in Hp as [Hi <-].
        split; [done |]. split; [lia | done].
    - right. split; [| by eauto].
      pose proof (Ha _ _ HR') as Hall. rewrite Forall_lookup in Hall.
      by apply (Hall i p). }
  intros r1 R1 r2 R2 i j p HR1 HR2 Hi Hj. cbn [record_objs] in HR1, HR2.
  destruct (Hold r1 R1 i p HR1 Hi) as [(Hr1 & Hi1 & Hp1) | (Hlt1 & R1' & HR1' & Hi')];
    destruct (Hold r2 R2 j p HR2 Hj) as [(Hr2 & Hj2 & Hp2) | (Hlt2 & R2' & HR2' & Hj')];
    [lia | lia | lia |].
  by eapply H.
Qed.

Lemma edit_phone_records (self : ref) (old_phone new_phone : str) (σ : State) :
  record_objs (Record.edit_phone self old_phone new_phone σ).2 = record_objs σ.
Proof.
  unfold Record.edit_phone, bind.
  pose proof (get_phone_by_number_state self old_phone σ) as Hs.
  destruct (Record.get_phone_by_number self old_phone σ)
    as [[[found_phone idx] | e |] σ1]; simpl in Hs; subst σ1; [| done..].
  unfold get_record. destruct (record_objs σ !! self) as [R |]; [| done].
  destruct (truthy found_phone); [| done].
  unfold list_getitem. destruct idx as [i |]; [| done].
  destruct (phones R !! i) as [p |]; [| done].
  unfold ret, set_value. by destruct (phone_objs σ !! p).
Qed.

Lemma exec_owned (c : call) (σ : State) :
  phones_allocated σ → phones_owned σ → phones_owned (exec c σ).
Proof.
  intros Ha H.
  destruct c as [n | | r v | r v w | r v | r v | b r | b n | b n]; cbn [exec].
  - intros r1 R1 r2 R2 i j p HR1 HR2 Hi Hj.
    cbn [Record.__init__ new_record snd record_objs] in HR1, HR2.
    apply lookup_app_Some in HR1 as [HR1 | [_ HR1]];
      [| apply list_lookup_singleton_Some in HR1 as [_ <-];
         cbn [phones] in Hi; by rewrite lookup_nil in Hi].
    apply lookup_app_Some in HR2 as [HR2 | [_ HR2]];
      [| apply list_lookup_singleton_Some in HR2 as [_ <-];
         cbn [phones] in Hj; by rewrite lookup_nil in Hj].
    by eapply H.
  - by apply (owned_same_records σ).
  - by apply add_phone_owned.
  - apply (owned_same_records σ); [apply edit_phone_records | done].
  - by apply remove_phone_owned.
  - by rewrite find_phone_state.
  - destruct (add_record_records b r σ). by apply (owned_same_records σ).
  - by rewrite find_state.
  - destruct (delete_records b n σ). by apply (owned_same_records σ).
Qed.

Lemma run_owned (cs : list call) (σ : State) :
  phones_allocated σ → phones_owned σ →
  phones_allocated (run cs σ) ∧ phones_owned (run cs σ).
Proof.
  revert σ. induction cs as [| c cs IH]; intros σ Ha H; [done |].
  apply IH; [by apply exec_allocated | by apply exec_owned].
Qed.

Lemma empty_state_owned : phones_allocated empty_state ∧ phones_owned empty_state.
Proof.
  split.
  - intros r R HR. cbn [empty_state record_objs] in HR. by rewrite lookup_nil in HR.
  - intros r1 R1 r2 R2 i j p HR1.
    cbn [empty_state record_objs] in HR1. by rewrite lookup_nil in HR1.
Qed.

(** X10. In the store that any program of calls leaves, every reference in
    a phone list names a phone object, and no phone object is in the lists
    of two records or twice in one list: each [add_phone] makes its own
    object, and nothing else puts a phone in a list. *)
Theorem phones_have_one_owner (cs : list call) :
  phones_allocated (run cs empty_state) ∧ phones_owned (run cs empty_state).
Proof. apply run_owned; apply empty_state_owned. Qed.

(** * Beyond the claims: what an edit touches *)

Lemma edited_insert (q : ref) (new : str) (ps : list ref) (vs : list str)
    (i : nat) :
  ps !! i = Some q → (∀ j, ps !! j = Some q → j = i) →
  length ps = length vs →
  edited q new ps vs = <[i := new]> vs.
Proof.
  intros Hq Honce Hlen. apply list_eq. intros j.
  unfold edited. rewrite lookup_zip_with.
  destruct (decide (j = i)) as [-> | Hne].
  - rewrite Hq. apply lookup_lt_Some in Hq as Hlt. rewrite Hlen in Hlt.
    destruct (lookup_lt_is_Some_2 vs i Hlt) as [w Hw]. rewrite Hw. simpl.
    by rewrite decide_True, list_lookup_insert_eq.
  - rewrite list_lookup_insert_ne by done.
    destruct (ps !! j) as [p |] eqn:Hp; simpl.
    + destruct (vs !! j) as [w |]; simpl; [| done].
      rewrite decide_False; [done |]. intros ->. by apply Hne, Honce.
    + symmetry. apply lookup_ge_None. apply lookup_ge_None in Hp. lia.
Qed.

Lemma holds_elsewhere (σ : State) (q : ref) (new : str)
    (ps : list ref) (ws : list str) :
  q ∉ ps → Forall2 (holds σ) ps ws → Forall2 (holds (with_value σ q new)) ps ws.
Proof.
  intros Hq H. induction H as [| p w ps ws Hp _ IH]; [constructor |].
  apply not_elem_of_cons in Hq as [Hne Hq].
  constructor; [| by apply IH].
  unfold holds, with_value. cbn [phone_objs]. by rewrite list_lookup_insert_ne.
Qed.

(** X11. Where no phone object is shared, [edit_phone] with a value that
    is there changes the record's list of values at the first occurrence
    of the old value and nowhere else (the new value is taken as it is),
    and the phones of every other record read as before. *)
Theorem edit_phone_in_place (σ : State) (self : ref) (R : RecordObj)
    (vs : list str) (old new : str) :
  phones_owned σ →
  record_objs σ !! self = Some R →
  phone_values self σ = (Ret vs, σ) →
  old ∈ vs →
  ∃ i σ', first_at old vs i
          ∧ Record.edit_phone self old new σ = (Ret tt, σ')
          ∧ phone_values self σ' = (Ret (<[i := new]> vs), σ')
          ∧ ∀ r ws, r ≠ self → phone_values r σ = (Ret ws, σ) →
                    phone_values r σ' = (Ret ws, σ').
Proof.
  intros Hown HR Hvs Hold.
  apply phone_values_inv in Hvs as (R' & HR' & Hvs).
  rewrite HR in HR'. injection HR' as <-.
  destruct (first_at_exists old vs Hold) as [i Hi].
  destruct (edit_phone_first σ self R vs old new i) as (p & Hp & Hpv & He);
    [done.. |].
  exists i, (with_value σ p new). split; [done |]. split; [done |]. split.
  - apply (phone_values_intro _ R); [done |].
    rewrite <- (edited_insert p new (phones R)).
    + by eapply holds_edited.
    + done.
    + intros j Hj. by destruct (Hown self R self R j i p HR HR Hj Hp).
    + by eapply Forall2_length.
  - intros r ws Hr Hws.
    apply phone_values_inv in Hws as (R' & HR' & Hws).
    apply (phone_values_intro _ R'); [done |].
    apply holds_elsewhere; [| done].
    intros (j & Hj)%list_elem_of_lookup_1.
    by destruct (Hown r R' self R j i p HR' HR Hj Hp).
Qed.

(** X12. [edit_phone] from [old] to a value [new] that no phone of the
    record has, and then back from [new] to [old], gives back the store
    there was. *)
Theorem edit_phone_round_trip (σ : State) (self : ref) (R : RecordObj)
    (vs : list str) (old new : str) :
  record_objs σ !! self = Some R →
  phone_values self σ = (Ret vs, σ) →
  old ∈ vs →
  new ∉ vs →
  ∃ σ', Record.edit_phone self old new σ = (Ret tt, σ')
        ∧ Record.edit_phone self new old σ' = (Ret tt, σ).
Proof.
  intros HR Hvs Hold Hnew.
  apply phone_values_inv in Hvs as (R' & HR' & Hvs).
  rewrite HR in HR'. injection HR' as <-.
  destruct (first_at_exists old vs Hold) as [i Hi].
  destruct (edit_phone_first σ self R vs old new i) as (p & Hp & Hpv & He);
    [done.. |].
  exists (with_value σ p new). split; [done |].
  assert (Hi' : first_at new (edited p new (phones R) vs) i).
  { eapply edited_first_new; [done.. |].
    intros (j & Hj & _)%elem_of_take. apply Hnew. by eapply list_elem_of_lookup_2. }
  destruct (edit_phone_first (with_value σ p new) self R
              (edited p new (phones R) vs) new old i)
    as (q & Hq & _ & He'); [done | by eapply holds_edited | done |].
  rewrite Hp in Hq. injection Hq as <-. rewrite He'. f_equal.
  unfold with_value. cbn [phone_objs record_objs book_objs].
  rewrite list_insert_insert_eq, list_insert_id by done.
  by destruct σ.
Qed.

(** X13. [Record(name)] makes a record without phones: its string form
    ends after ", phones: ", [find_phone] returns [None] for every number,
    [edit_phone] raises the not-found error and [remove_phone] raises
    [TypeError]. *)
Theorem record_init_empty (σ : State) (n v w : str) :
  ∃ r σ', Record.__init__ n σ = (Ret r, σ')
          ∧ record_objs σ !! r = None
          ∧ phone_values r σ' = (Ret [], σ')
          ∧ Record.__str__ r σ' = (Ret ("Contact name: " +:+ n +:+ ", phones: "), σ')
          ∧ Record.find_phone r v σ' = (Ret None, σ')
          ∧ Record.edit_phone r v w σ'
            = (Raise (ValueError (Record.not_found_message v n)), σ')
          ∧ Record.remove_phone r v σ' = (Raise TypeError, σ').
Proof.
  eexists _, _. split; [reflexivity |].
  set (σ' := mkState _ _ _).
  assert (HR : record_objs σ' !! length (record_objs σ)
               = Some (mkRecord (mkField n) [])).
  { cbn [σ' record_objs]. by rewrite lookup_app_r, Nat.sub_diag. }
  assert (Hvs : Forall2 (holds σ') (phones (mkRecord (mkField n) [])) [])
    by constructor.
  split; [by apply lookup_ge_None |].
  split; [by eapply phone_values_intro |]. split; [| split; [| split]].
  - unfold Record.__str__, bind, get_record. by rewrite HR.
  - eapply find_phone_absent; [done.. | apply not_elem_of_nil].
  - unfold Record.edit_phone, bind.
    rewrite (get_phone_by_number_absent σ' _ _ [] v HR Hvs) by apply not_elem_of_nil.
    unfold get_record. by rewrite HR.
  - eapply remove_phone_absent; [done.. | apply not_elem_of_nil].
Qed.

(** * The properties beyond the claims at concrete inputs *)

Lemma add_phone_invalid_witness :
  Record.add_phone 0 "12-34" john_one_phone
  = (Raise (ValueError "Phone number must have only digits with length 10, but number: '12-34' was given with the length 5"),
     john_one_phone).
Proof.
  apply (add_phone_invalid john_one_phone 0 (mkRecord (mkField "John") [0]));
    [reflexivity |].
  intros [Hlen _]. discriminate Hlen.
Defined.

Lemma add_phone_appends_witness :
  ∃ σ', Record.add_phone 0 "1234567890" john_one_phone = (Ret tt, σ')
        ∧ phone_values 0 σ' = (Ret ["1234567890"; "1234567890"], σ').
Proof.
  destruct (add_phone_appends john_one_phone 0 (mkRecord (mkField "John") [0])
              ["1234567890"] "1234567890")
    as (σ' & Hadd & Hvs & _); [reflexivity | reflexivity | by apply phone_check |].
  eauto.
Defined.

Lemma add_then_find_witness :
  ∃ σ', Record.add_phone 0 "5555555555" john_one_phone = (Ret tt, σ')
        ∧ Record.find_phone 0 "5555555555" σ' = (Ret (Some 1), σ').
Proof.
  destruct (add_then_find john_one_phone 0 (mkRecord (mkField "John") [0])
              ["1234567890"] "5555555555")
    as (σ' & q & Hadd & Hfind & _ & Hnew & _);
    [reflexivity | reflexivity | by apply phone_check |].
  rewrite Hnew in Hfind by by_decision. eauto.
Defined.

Lemma get_phone_by_number_spec_witness :
  Record.get_phone_by_number 0 "1234567890" john_same_twice
  = (Ret (Some 0, Some 0), john_same_twice)
  ∧ Record.get_phone_by_number 0 "5555555555" john_same_twice
    = (Ret (None, None), john_same_twice).
Proof.
  pose proof (get_phone_by_number_spec john_same_twice 0
                (mkRecord (mkField "John") [0; 1])
                ["1234567890"; "1234567890"]) as H.
  split.
  - destruct (H "1234567890" eq_refl eq_refl)
      as [(Hnot & _) | (i & p & Hi & Hp & _ & Hg & _)].
    + exfalso. apply Hnot. by_decision.
    + assert (i = 0) as ->.
      { eapply first_at_unique; [exact Hi |].
        split; [reflexivity | apply not_elem_of_nil]. }
      injection Hp as <-. exact Hg.
  - destruct (H "5555555555" eq_refl eq_refl)
      as [(_ & Hg & _) | (i & p & Hi & _)]; [exact Hg |].
    exfalso. apply first_at_elem in Hi. revert Hi. by_decision.
Defined.

Lemma add_record_then_find_witness :
  ∃ σ', AddressBook.add_record 0 0 john_beside_book = (Ret tt, σ')
        ∧ AddressBook.find 0 "John" σ' = (Ret (Some 0), σ').
Proof.
  destruct (add_record_then_find john_beside_book 0 0 (mkBook ∅)
              (mkRecord (mkField "John") [0]))
    as (σ' & B' & Hadd & Hfind & _); [reflexivity.. |].
  eauto.
Defined.

Lemma add_record_then_delete_witness :
  ∃ σ', AddressBook.add_record 0 0 john_beside_book = (Ret tt, σ')
        ∧ AddressBook.delete 0 "John" σ' = (Ret tt, john_beside_book).
Proof.
  exact (add_record_then_delete john_beside_book 0 0 (mkBook ∅)
           (mkRecord (mkField "John") [0]) eq_refl eq_refl eq_refl).
Defined.

Lemma book_keeps_reference_witness :
  ∃ σ1 σ2, AddressBook.add_record 0 0 john_beside_book = (Ret tt, σ1)
           ∧ Record.add_phone 0 "5555555555" σ1 = (Ret tt, σ2)
           ∧ AddressBook.find 0 "John" σ2 = (Ret (Some 0), σ2)
           ∧ phone_values 0 σ2 = (Ret ["1234567890"; "5555555555"], σ2).
Proof.
  exact (book_keeps_reference john_beside_book 0 0 (mkBook ∅)
           (mkRecord (mkField "John") [0]) ["1234567890"] "5555555555"
           eq_refl eq_refl eq_refl eq_refl
           (proj1 (phone_check "5555555555") eq_refl)).
Defined.

Lemma valid_without_edit_witness :
  Forall ten_digits ["1234567890"; "5555555555"].
Proof.
  apply (valid_without_edit john_and_jane 0).
  - repeat constructor.
  - vm_compute. reflexivity.
Defined.

Lemma edit_phone_in_place_witness :
  ∃ i σ', first_at "1234567890" ["1234567890"; "5555555555"] i
          ∧ Record.edit_phone 0 "1234567890" "12-34" (run john_and_jane empty_state)
            = (Ret tt, σ')
          ∧ phone_values 0 σ' = (Ret (<[i := "12-34"]> ["1234567890"; "5555555555"]), σ')
          ∧ phone_values 1 σ' = (Ret ["9876543210"], σ').
Proof.
  destruct (edit_phone_in_place (run john_and_jane empty_state) 0
              (mkRecord (mkField "John") [0; 1])
              ["1234567890"; "5555555555"] "1234567890" "12-34")
    as (i & σ' & Hi & Hedit & Hself & Hother).
  - apply run_owned; apply empty_state_owned.
  - vm_compute. reflexivity.
  - vm_compute. reflexivity.
  - by_decision.
  - exists i, σ'. repeat (split; [done |]).
    apply Hother; [done |]. vm_compute. reflexivity.
Defined.

Lemma edit_phone_round_trip_witness :
  ∃ σ', Record.edit_phone 0 "1234567890" "1112223333" john_one_phone = (Ret tt, σ')
        ∧ Record.edit_phone 0 "1112223333" "1234567890" σ' = (Ret tt, john_one_phone).
Proof.
  apply (edit_phone_round_trip john_one_phone 0 (mkRecord (mkField "John") [0])
           ["1234567890"]); [reflexivity | reflexivity | by_decision | by_decision].
Defined.
